(** * The cluster plan document engine of pkg/install/plan.go

    A shallow embedding of the plan reader (deprecated-field migration and
    default resolution), the template builder, the password generator and
    the comment-annotating line scan of [FilePlanner.Write], followed by
    the properties established about them.

    Go strings are byte strings; they are embedded as [string] (a list of
    [ascii] bytes).  Go [int] values are embedded as [Z]; none of the
    arithmetic below can leave the 64-bit range on inputs that fit in
    memory, so no wrap-around is written out. *)

From Stdlib Require Import ZArith Ascii String List Bool Lia.
From stdpp Require Import base option gmap strings list fin_maps pretty.

Local Open Scope string_scope.
Local Open Scope Z_scope.

(** ** Results of fallible Go functions: [(value, error)] *)

Inductive result (A : Type) : Type :=
| Ok (a : A)
| Err (msg : string).
Arguments Ok {A} a.
Arguments Err {A} msg.

(** ** Regular expressions (package regexp)

    The two patterns of plan.go are sequences of quantified character
    classes, optionally wrapped in one capturing group and optionally
    anchored.  The matcher below implements Go's leftmost-first semantics
    for that fragment: every quantifier is greedy, and a failed
    continuation backtracks to a shorter repetition.

    A class is a predicate on bytes.  The classes used here only contain
    ASCII characters, and the negated class contains every non-ASCII
    byte, so matching bytes agrees with matching the runes of a valid
    UTF-8 string. *)

Module Regexp.

Definition class := ascii -> bool.

Inductive quant := One | Star | Plus.

Inductive node :=
| BeginText                          (* ^ *)
| EndText                            (* $ *)
| Rep (q : quant) (c : class)        (* c, c*, c+ *)
| Capture (q : quant) (c : class).   (* (c), (c* ), (c+) *)

Definition regexp := list node.

(** A successful run: the text consumed, and the captured groups. *)
Definition run_result : Type := string * list string.

Definition between (lo hi c : ascii) : bool :=
  (nat_of_ascii lo <=? nat_of_ascii c)%nat && (nat_of_ascii c <=? nat_of_ascii hi)%nat.

Definition char c0 : class := fun c => Ascii.eqb c c0.

(** [greedy_star c k pos s] consumes as many bytes of class [c] as the
    continuation [k] allows, longest first. *)
Fixpoint greedy_star {R} (c : class) (k : nat -> string -> option R)
         (pos : nat) (s : string) : option (string * R) :=
  match s with
  | String a s' =>
      if c a then
        match greedy_star c k (S pos) s' with
        | Some (m, r) => Some (String a m, r)
        | None => match k pos s with Some r => Some ("", r) | None => None end
        end
      else match k pos s with Some r => Some ("", r) | None => None end
  | EmptyString => match k pos s with Some r => Some ("", r) | None => None end
  end.

Definition greedy {R} (q : quant) (c : class) (k : nat -> string -> option R)
           (pos : nat) (s : string) : option (string * R) :=
  match q with
  | Star => greedy_star c k pos s
  | One =>
      match s with
      | String a s' =>
          if c a then match k (S pos) s' with
                      | Some r => Some (String a "", r)
                      | None => None
                      end
          else None
      | EmptyString => None
      end
  | Plus =>
      match s with
      | String a s' =>
          if c a then match greedy_star c k (S pos) s' with
                      | Some (m, r) => Some (String a m, r)
                      | None => None
                      end
          else None
      | EmptyString => None
      end
  end.

(** [run re pos s] matches [re] against [s], the suffix of the subject
    that starts at byte offset [pos]. *)
Fixpoint run (re : regexp) : nat -> string -> option run_result :=
  match re with
  | [] => fun _ _ => Some ("", [])
  | n :: rest =>
      let k := run rest in
      match n with
      | BeginText => fun pos s => if (pos =? 0)%nat then k pos s else None
      | EndText => fun pos s => match s with EmptyString => k pos s | _ => None end
      | Rep q c => fun pos s =>
          match greedy q c k pos s with
          | Some (m, (whole, groups)) => Some (m +:+ whole, groups)
          | None => None
          end
      | Capture q c => fun pos s =>
          match greedy q c k pos s with
          | Some (m, (whole, groups)) => Some (m +:+ whole, m :: groups)
          | None => None
          end
      end
  end.

(** The leftmost match: the first start offset at which [run] succeeds. *)
Fixpoint search (re : regexp) (pos : nat) (s : string) : option run_result :=
  match run re pos s with
  | Some r => Some r
  | None =>
      match s with
      | String _ s' => search re (S pos) s'
      | EmptyString => None
      end
  end.

(** [Regexp.MatchString] *)
Definition MatchString (re : regexp) (s : string) : bool :=
  match search re 0 s with Some _ => true | None => false end.

(** [Regexp.FindStringSubmatch]: [None] is Go's nil slice; otherwise
    element 0 is the whole match and the following ones the groups. *)
Definition FindStringSubmatch (re : regexp) (s : string) : option (list string) :=
  match search re 0 s with
  | Some (whole, groups) => Some (whole :: groups)
  | None => None
  end.

End Regexp.

Import Regexp.

(** [a-zA-Z] *)
Definition letter : class := fun c => between "a" "z" c || between "A" "Z" c.

(** [a-z_\-A-Z] *)
Definition keyChar : class := fun c => between "a" "z" c || char "_" c || char "-" c || between "A" "Z" c.

(** [a-zA-Z1-9] *)
Definition alphaNum19 : class := fun c => between "a" "z" c || between "A" "Z" c || between "1" "9" c.

(** [var yamlKeyRE = regexp.MustCompile(`[^a-zA-Z]*([a-z_\-A-Z]+)[ ]*:`)] *)
Definition yamlKeyRE : regexp :=
  [ Rep Star (fun c => negb (letter c)); Capture Plus keyChar; Rep Star (char " "); Rep One (char ":") ].

(** [regexp.MustCompile("^[a-zA-Z1-9]+$")] *)
Definition alphaNumericRE : regexp := [ BeginText; Rep Plus alphaNum19; EndText ].

(** ** Password generation

    [generateAlphaNumericPassword] draws from two sources of randomness
    outside the repository: [math/rand] and the garbler library.  Both
    are embedded as an oracle that the function consumes by explicit
    state passing: [draw n] is the n-th raw value of the random source
    and [candidate n reqs] the outcome of the n-th call of
    [garbler.NewPassword] (a password, or the library's error). *)

Record PasswordStrengthRequirements := {
  MinimumTotalLength : Z;
  Uppercase : Z;
  Digits : Z;
  Punctuation : Z
}.

Record Entropy := {
  draw : nat -> Z;
  candidate : nat -> PasswordStrengthRequirements -> result string
}.

(** How much of the oracle has been consumed. *)
Record Consumed := { draws : nat; calls : nat }.

Definition errAlphaNumeric : string := "failed to generate alphanumeric password".

Section Password.

Variable E : Entropy.

(** [rand.Intn(n)]: a value in [0, n) *)
Definition Intn (n : Z) (st : Consumed) : Z * Consumed :=
  (draw E (draws st) mod n, {| draws := S (draws st); calls := calls st |}).

(** [garbler.NewPassword(reqs)] *)
Definition NewPassword (reqs : PasswordStrengthRequirements) (st : Consumed)
  : result string * Consumed :=
  (candidate E (calls st) reqs, {| draws := draws st; calls := S (calls st) |}).

(** The body of the [for] loop, iterated.  The Go loop has no bound of
    its own, so the embedding takes fuel: [None] means that the fuel
    ran out before the loop returned. *)
Fixpoint generateLoop (fuel : nat) (attempts : Z) (st : Consumed)
  : option (result string * Consumed) :=
  match fuel with
  | O => None
  | S fuel' =>
      let (up, st1) := Intn 6 st in
      let (dg, st2) := Intn 6 st1 in
      let reqs := {| MinimumTotalLength := 16;
                     Uppercase := up;
                     Digits := dg;
                     Punctuation := -1 |} in
      let (r, st3) := NewPassword reqs st2 in
      match r with
      | Err e => Some (Err e, st3)
      | Ok pass =>
          if MatchString alphaNumericRE pass then Some (Ok pass, st3)
          else if attempts =? 5 then Some (Err errAlphaNumeric, st3)
          else generateLoop fuel' (attempts + 1) st3
      end
  end.

Definition generateAlphaNumericPassword (fuel : nat) : option (result string * Consumed) :=
  generateLoop fuel 0 {| draws := 0; calls := 0 |}.

(** The requirements handed to the generator at its n-th call. *)
Definition reqsAt (n : nat) : PasswordStrengthRequirements :=
  {| MinimumTotalLength := 16;
     Uppercase := draw E (2 * n) mod 6;
     Digits := draw E (2 * n + 1) mod 6;
     Punctuation := -1 |}.

End Password.

(** A generator that never produces an alphanumeric candidate (and never
    fails on its own). *)
Definition neverAlphaNumeric (E : Entropy) : Prop :=
  forall n reqs, exists s, candidate E n reqs = Ok s /\ MatchString alphaNumericRE s = false.

(** ASCII punctuation: the printable characters that are neither letters,
    digits nor the space. *)
Definition punctuation : class := fun c =>
  between "!" "/" c || between ":" "@" c || between "[" "`" c || between "{" "~" c.

Fixpoint allIn (c : class) (s : string) : bool :=
  match s with
  | EmptyString => true
  | String a s' => c a && allIn c s'
  end.

Definition stuckEntropy : Entropy :=
  {| draw := fun n => Z.of_nat n; candidate := fun _ _ => Ok "p@ss-word-with-punct" |}.

Definition luckyEntropy : Entropy :=
  {| draw := fun n => 7 * Z.of_nat n;
     candidate := fun n _ => if (n <? 2)%nat then Ok "has0zero" else Ok "Xk3mPq9TrWv1bNc7" |}.


(** ** The plan document

    The declarations of [Plan] and of the structs nested in it live in a
    file of package install other than plan.go.  The records below carry
    the fields that plan.go reads or writes, with the types its
    statements require: a field compared with [nil] is a pointer (an
    [option]), a field compared with the empty string a [string], and so
    on.  Go's zero values are the empty string, 0, [false], [None] and
    the empty list; each module names the zero value of its struct
    [zero]. *)

Module Node.
(** Modelled from the spec: a node placeholder: host name, IP and internal IP
    (struct [Node], declared outside plan.go). *)
Record t := { Host : string; IP : string; InternalIP : string }.
(** [Node{}] *)
Definition zero : t := {| Host := ""; IP := ""; InternalIP := "" |}.
End Node.

Module NodeGroup.
(** Modelled from the spec: a node group: the expected count and the nodes
    (struct [NodeGroup], declared outside plan.go). *)
Record t := { ExpectedCount : Z; Nodes : list Node.t }.
Definition zero : t := {| ExpectedCount := 0; Nodes := [] |}.
End NodeGroup.

Module NFSVolume.
(** Modelled from the spec: an NFS volume: host and mount path
    (struct [NFSVolume], declared outside plan.go). *)
Record t := { Host : string; Path : string }.
End NFSVolume.

Module NFS.
(** Modelled from the spec: the list of NFS volumes
    (struct [NFS], declared outside plan.go). *)
Record t := { Volumes : list NFSVolume.t }.
Definition zero : t := {| Volumes := [] |}.
End NFS.

Module SSH.
(** Modelled from the spec: the SSH access settings
    (struct [SSH], declared outside plan.go). *)
Record t := { User : string; Key : string; Port : Z }.
Definition zero : t := {| User := ""; Key := ""; Port := 0 |}.
End SSH.

Module Networking.
(** Modelled from the spec: the networking settings, with the flat networking type of old plans
    (struct [Networking], declared outside plan.go). *)
Record t := {
  Type_ : string;                  (* Networking.Type, from KET < v1.5.0 *)
  PodCIDRBlock : string;
  ServiceCIDRBlock : string;
  UpdateHostsFiles : bool
}.
Definition zero : t :=
  {| Type_ := ""; PodCIDRBlock := ""; ServiceCIDRBlock := ""; UpdateHostsFiles := false |}.
End Networking.

Module Certificates.
(** Modelled from the spec: the certificate expiry settings
    (struct [Certificates], declared outside plan.go). *)
Record t := { Expiry : string; CAExpiry : string }.
Definition zero : t := {| Expiry := ""; CAExpiry := "" |}.
End Certificates.

Module Cluster.
(** Modelled from the spec: the cluster block, with the deprecated allow-install flag as a pointer
    (struct [Cluster], declared outside plan.go). *)
Record t := {
  Name : string;
  AdminPassword : string;
  DisablePackageInstallation : bool;
  AllowPackageInstallation : option bool;   (* deprecated *)
  DisconnectedInstallation : bool;
  SSH : SSH.t;
  Networking : Networking.t;
  Certificates : Certificates.t
}.
Definition zero : t :=
  {| Name := ""; AdminPassword := ""; DisablePackageInstallation := false;
     AllowPackageInstallation := None; DisconnectedInstallation := false;
     SSH := SSH.zero; Networking := Networking.zero; Certificates := Certificates.zero |}.
End Cluster.

Module DockerRegistry.
(** Modelled from the spec: the registry block, with the deprecated address and port
    (struct [DockerRegistry], declared outside plan.go). *)
Record t := {
  Server : string;
  Address : string;                (* deprecated *)
  Port : Z                         (* deprecated *)
}.
Definition zero : t := {| Server := ""; Address := ""; Port := 0 |}.
End DockerRegistry.

Module CalicoOptions.
(** Modelled from the spec: the Calico options of the CNI add-on
    (struct [CalicoOptions], declared outside plan.go). *)
Record t := { Mode : string; LogLevel : string; WorkloadMTU : Z; FelixInputMTU : Z }.
Definition zero : t := {| Mode := ""; LogLevel := ""; WorkloadMTU := 0; FelixInputMTU := 0 |}.
End CalicoOptions.

Module CNIOptions.
(** Modelled from the spec: the provider-specific options of the CNI add-on
    (struct [CNIOptions], declared outside plan.go). *)
Record t := { Calico : CalicoOptions.t }.
Definition zero : t := {| Calico := CalicoOptions.zero |}.
End CNIOptions.

Module CNI.
(** Modelled from the spec: the CNI add-on
    (struct [CNI], declared outside plan.go). *)
Record t := { Provider : string; Options : CNIOptions.t }.
(** [&CNI{}] *)
Definition zero : t := {| Provider := ""; Options := CNIOptions.zero |}.
End CNI.

Module DNS.
(** Modelled from the spec: the DNS add-on
    (struct [DNS], declared outside plan.go). *)
Record t := { Provider : string }.
Definition zero : t := {| Provider := "" |}.
End DNS.

Module Heapster.
(** Modelled from the spec: the structured heapster options
    (struct [Heapster], declared outside plan.go). *)
Record t := { Replicas : Z; ServiceType : string; Sink : string }.
Definition zero : t := {| Replicas := 0; ServiceType := ""; Sink := "" |}.
End Heapster.

Module InfluxDB.
(** Modelled from the spec: the structured InfluxDB options
    (struct [InfluxDB], declared outside plan.go). *)
Record t := { PVCName : string }.
Definition zero : t := {| PVCName := "" |}.
End InfluxDB.

Module HeapsterOptions.
(** Modelled from the spec: the monitoring options, structured and flat
    (struct [HeapsterOptions], declared outside plan.go). *)
Record t := {
  Heapster : Heapster.t;
  InfluxDB : InfluxDB.t;
  HeapsterReplicas : Z;            (* from KET < v1.5.0 *)
  InfluxDBPVCName : string         (* from KET < v1.5.0 *)
}.
Definition zero : t :=
  {| Heapster := Heapster.zero; InfluxDB := InfluxDB.zero;
     HeapsterReplicas := 0; InfluxDBPVCName := "" |}.
End HeapsterOptions.

Module HeapsterMonitoring.
(** Modelled from the spec: the monitoring add-on
    (struct [HeapsterMonitoring], declared outside plan.go). *)
Record t := { Options : HeapsterOptions.t }.
(** [&HeapsterMonitoring{}] *)
Definition zero : t := {| Options := HeapsterOptions.zero |}.
End HeapsterMonitoring.

Module PackageManager.
(** Modelled from the spec: the package-manager add-on
    (struct [PackageManager], declared outside plan.go). *)
Record t := { Disable : bool; Provider : string }.
Definition zero : t := {| Disable := false; Provider := "" |}.
End PackageManager.

Module Dashboard.
(** Modelled from the spec: the dashboard add-on
    (struct [Dashboard], declared outside plan.go). *)
Record t := { Disable : bool }.
(** [&Dashboard{}] *)
Definition zero : t := {| Disable := false |}.
End Dashboard.

Module DashboardDeprecated.
(** Modelled from the spec: the legacy location of the dashboard toggle
    (struct [DashboardDeprecated], declared outside plan.go). *)
Record t := { Disable : bool }.
End DashboardDeprecated.

Module AddOns.
(** Modelled from the spec: the add-ons block
    (struct [AddOns], declared outside plan.go). *)
Record t := {
  CNI : option CNI.t;
  DNS : DNS.t;
  HeapsterMonitoring : option HeapsterMonitoring.t;
  Dashboard : option Dashboard.t;
  DashboardDeprecated : option DashboardDeprecated.t;
  PackageManager : PackageManager.t
}.
Definition zero : t :=
  {| CNI := None; DNS := DNS.zero; HeapsterMonitoring := None; Dashboard := None;
     DashboardDeprecated := None; PackageManager := PackageManager.zero |}.
End AddOns.

Module DeprecatedPackageManager.
(** Modelled from the spec: the legacy package-manager block
    (struct [DeprecatedPackageManager], declared outside plan.go). *)
Record t := { Enabled : bool }.
End DeprecatedPackageManager.

Module Features.
(** Modelled from the spec: the legacy features block
    (struct [Features], declared outside plan.go). *)
Record t := { PackageManager : option DeprecatedPackageManager.t }.
End Features.

Module Plan.
(** Modelled from the spec: the root of the plan document
    (struct [Plan], declared outside plan.go). *)
Record t := {
  Cluster : Cluster.t;
  DockerRegistry : DockerRegistry.t;
  AddOns : AddOns.t;
  Features : option Features.t;    (* deprecated *)
  Etcd : NodeGroup.t;
  Master : NodeGroup.t;
  Worker : NodeGroup.t;
  Ingress : NodeGroup.t;
  Storage : NodeGroup.t;
  NFS : NFS.t
}.
(** [Plan{}] *)
Definition zero : t :=
  {| Cluster := Cluster.zero; DockerRegistry := DockerRegistry.zero; AddOns := AddOns.zero;
     Features := None; Etcd := NodeGroup.zero; Master := NodeGroup.zero;
     Worker := NodeGroup.zero; Ingress := NodeGroup.zero; Storage := NodeGroup.zero;
     NFS := NFS.zero |}.
End Plan.

(** ** Constants *)

Definition ket133PackageManagerProvider : string := "helm".
Definition defaultCAExpiry : string := "17520h".

(** Modelled from the spec: [cniProviderCalico] is declared outside
    plan.go; the spec gives the default CNI provider as "calico". *)
Definition cniProviderCalico : string := "calico".

(** ** Read: migration of deprecated fields

    Each [let] below is one [if] statement of [readDeprecatedFields],
    in order; an assignment through nested value structs rebuilds the
    enclosing records. *)

Definition setPackageManager (pm : PackageManager.t) (p : Plan.t) : Plan.t :=
  let a := Plan.AddOns p in
  {| Plan.Cluster := Plan.Cluster p; Plan.DockerRegistry := Plan.DockerRegistry p;
     Plan.AddOns := {| AddOns.CNI := AddOns.CNI a; AddOns.DNS := AddOns.DNS a;
                       AddOns.HeapsterMonitoring := AddOns.HeapsterMonitoring a;
                       AddOns.Dashboard := AddOns.Dashboard a;
                       AddOns.DashboardDeprecated := AddOns.DashboardDeprecated a;
                       AddOns.PackageManager := pm |};
     Plan.Features := Plan.Features p; Plan.Etcd := Plan.Etcd p; Plan.Master := Plan.Master p;
     Plan.Worker := Plan.Worker p; Plan.Ingress := Plan.Ingress p; Plan.Storage := Plan.Storage p;
     Plan.NFS := Plan.NFS p |}.

Definition setDisablePackageInstallation (b : bool) (p : Plan.t) : Plan.t :=
  let c := Plan.Cluster p in
  {| Plan.Cluster := {| Cluster.Name := Cluster.Name c;
                        Cluster.AdminPassword := Cluster.AdminPassword c;
                        Cluster.DisablePackageInstallation := b;
                        Cluster.AllowPackageInstallation := Cluster.AllowPackageInstallation c;
                        Cluster.DisconnectedInstallation := Cluster.DisconnectedInstallation c;
                        Cluster.SSH := Cluster.SSH c;
                        Cluster.Networking := Cluster.Networking c;
                        Cluster.Certificates := Cluster.Certificates c |};
     Plan.DockerRegistry := Plan.DockerRegistry p; Plan.AddOns := Plan.AddOns p;
     Plan.Features := Plan.Features p; Plan.Etcd := Plan.Etcd p; Plan.Master := Plan.Master p;
     Plan.Worker := Plan.Worker p; Plan.Ingress := Plan.Ingress p; Plan.Storage := Plan.Storage p;
     Plan.NFS := Plan.NFS p |}.

Definition setDashboard (d : option Dashboard.t) (p : Plan.t) : Plan.t :=
  let a := Plan.AddOns p in
  {| Plan.Cluster := Plan.Cluster p; Plan.DockerRegistry := Plan.DockerRegistry p;
     Plan.AddOns := {| AddOns.CNI := AddOns.CNI a; AddOns.DNS := AddOns.DNS a;
                       AddOns.HeapsterMonitoring := AddOns.HeapsterMonitoring a;
                       AddOns.Dashboard := d;
                       AddOns.DashboardDeprecated := AddOns.DashboardDeprecated a;
                       AddOns.PackageManager := AddOns.PackageManager a |};
     Plan.Features := Plan.Features p; Plan.Etcd := Plan.Etcd p; Plan.Master := Plan.Master p;
     Plan.Worker := Plan.Worker p; Plan.Ingress := Plan.Ingress p; Plan.Storage := Plan.Storage p;
     Plan.NFS := Plan.NFS p |}.

Definition setRegistryServer (srv : string) (p : Plan.t) : Plan.t :=
  let r := Plan.DockerRegistry p in
  {| Plan.Cluster := Plan.Cluster p;
     Plan.DockerRegistry := {| DockerRegistry.Server := srv;
                               DockerRegistry.Address := DockerRegistry.Address r;
                               DockerRegistry.Port := DockerRegistry.Port r |};
     Plan.AddOns := Plan.AddOns p;
     Plan.Features := Plan.Features p; Plan.Etcd := Plan.Etcd p; Plan.Master := Plan.Master p;
     Plan.Worker := Plan.Worker p; Plan.Ingress := Plan.Ingress p; Plan.Storage := Plan.Storage p;
     Plan.NFS := Plan.NFS p |}.

(** [p.Features != nil && p.Features.PackageManager != nil], and the
    struct behind the two pointers *)
Definition deprecatedPackageManager (p : Plan.t) : option DeprecatedPackageManager.t :=
  match Plan.Features p with
  | Some ft => Features.PackageManager ft
  | None => None
  end.

Definition readDeprecatedFields (p : Plan.t) : Plan.t :=
  let p :=
    match deprecatedPackageManager p with
    | Some old =>
        setPackageManager
          {| PackageManager.Disable := negb (DeprecatedPackageManager.Enabled old);
             PackageManager.Provider := ket133PackageManagerProvider |} p
    | None => p
    end in
  let p :=
    match Cluster.AllowPackageInstallation (Plan.Cluster p) with
    | Some allow => setDisablePackageInstallation (negb allow) p
    | None => p
    end in
  let p :=
    match AddOns.DashboardDeprecated (Plan.AddOns p), AddOns.Dashboard (Plan.AddOns p) with
    | Some old, None =>
        setDashboard (Some {| Dashboard.Disable := DashboardDeprecated.Disable old |}) p
    | _, _ => p
    end in
  let r := Plan.DockerRegistry p in
  if (DockerRegistry.Server r =? "")%string
     && negb (DockerRegistry.Address r =? "")%string
     && negb (DockerRegistry.Port r =? 0)
  then setRegistryServer (DockerRegistry.Address r +:+ ":" +:+ pretty (DockerRegistry.Port r)) p
  else p.

(** ** Read: default resolution

    [setDefaults] works through the pointers [p.AddOns.CNI],
    [p.AddOns.HeapsterMonitoring] and [p.AddOns.Dashboard].  Each is
    allocated first when nil, so the embedding follows the struct behind
    each pointer as a local value and stores the three back at the end. *)

Definition setCalico (f : CalicoOptions.t -> CalicoOptions.t) (c : CNI.t) : CNI.t :=
  {| CNI.Provider := CNI.Provider c;
     CNI.Options := {| CNIOptions.Calico := f (CNIOptions.Calico (CNI.Options c)) |} |}.

Definition setMode (v : string) (o : CalicoOptions.t) : CalicoOptions.t :=
  {| CalicoOptions.Mode := v; CalicoOptions.LogLevel := CalicoOptions.LogLevel o;
     CalicoOptions.WorkloadMTU := CalicoOptions.WorkloadMTU o;
     CalicoOptions.FelixInputMTU := CalicoOptions.FelixInputMTU o |}.

Definition setLogLevel (v : string) (o : CalicoOptions.t) : CalicoOptions.t :=
  {| CalicoOptions.Mode := CalicoOptions.Mode o; CalicoOptions.LogLevel := v;
     CalicoOptions.WorkloadMTU := CalicoOptions.WorkloadMTU o;
     CalicoOptions.FelixInputMTU := CalicoOptions.FelixInputMTU o |}.

Definition setWorkloadMTU (v : Z) (o : CalicoOptions.t) : CalicoOptions.t :=
  {| CalicoOptions.Mode := CalicoOptions.Mode o; CalicoOptions.LogLevel := CalicoOptions.LogLevel o;
     CalicoOptions.WorkloadMTU := v;
     CalicoOptions.FelixInputMTU := CalicoOptions.FelixInputMTU o |}.

Definition setFelixInputMTU (v : Z) (o : CalicoOptions.t) : CalicoOptions.t :=
  {| CalicoOptions.Mode := CalicoOptions.Mode o; CalicoOptions.LogLevel := CalicoOptions.LogLevel o;
     CalicoOptions.WorkloadMTU := CalicoOptions.WorkloadMTU o;
     CalicoOptions.FelixInputMTU := v |}.

Definition calico (c : CNI.t) : CalicoOptions.t := CNIOptions.Calico (CNI.Options c).

(** The body of [if p.AddOns.CNI == nil]. *)
Definition newCNI (networkingType : string) : CNI.t :=
  let c := CNI.zero in
  let c := {| CNI.Provider := cniProviderCalico; CNI.Options := CNI.Options c |} in
  let c := setCalico (setMode "overlay") c in
  let c := setCalico (setLogLevel "info") c in
  if negb (networkingType =? "")%string then setCalico (setMode networkingType) c else c.

Definition defaultsCNI (networkingType : string) (cni : option CNI.t) : CNI.t :=
  let c := match cni with None => newCNI networkingType | Some c => c end in
  let c := if (CalicoOptions.LogLevel (calico c) =? "")%string
           then setCalico (setLogLevel "info") c else c in
  let c := if CalicoOptions.FelixInputMTU (calico c) =? 0
           then setCalico (setFelixInputMTU 1440) c else c in
  if CalicoOptions.WorkloadMTU (calico c) =? 0
  then setCalico (setWorkloadMTU 1500) c else c.

Definition setHeapster (f : Heapster.t -> Heapster.t) (h : HeapsterMonitoring.t) : HeapsterMonitoring.t :=
  let o := HeapsterMonitoring.Options h in
  {| HeapsterMonitoring.Options :=
       {| HeapsterOptions.Heapster := f (HeapsterOptions.Heapster o);
          HeapsterOptions.InfluxDB := HeapsterOptions.InfluxDB o;
          HeapsterOptions.HeapsterReplicas := HeapsterOptions.HeapsterReplicas o;
          HeapsterOptions.InfluxDBPVCName := HeapsterOptions.InfluxDBPVCName o |} |}.

Definition setPVCName (v : string) (h : HeapsterMonitoring.t) : HeapsterMonitoring.t :=
  let o := HeapsterMonitoring.Options h in
  {| HeapsterMonitoring.Options :=
       {| HeapsterOptions.Heapster := HeapsterOptions.Heapster o;
          HeapsterOptions.InfluxDB := {| InfluxDB.PVCName := v |};
          HeapsterOptions.HeapsterReplicas := HeapsterOptions.HeapsterReplicas o;
          HeapsterOptions.InfluxDBPVCName := HeapsterOptions.InfluxDBPVCName o |} |}.

Definition setReplicas (v : Z) (h : Heapster.t) : Heapster.t :=
  {| Heapster.Replicas := v; Heapster.ServiceType := Heapster.ServiceType h;
     Heapster.Sink := Heapster.Sink h |}.

Definition setServiceType (v : string) (h : Heapster.t) : Heapster.t :=
  {| Heapster.Replicas := Heapster.Replicas h; Heapster.ServiceType := v;
     Heapster.Sink := Heapster.Sink h |}.

Definition setSink (v : string) (h : Heapster.t) : Heapster.t :=
  {| Heapster.Replicas := Heapster.Replicas h; Heapster.ServiceType := Heapster.ServiceType h;
     Heapster.Sink := v |}.

Definition heapster (h : HeapsterMonitoring.t) : Heapster.t :=
  HeapsterOptions.Heapster (HeapsterMonitoring.Options h).

Definition defaultSink : string := "influxdb:http://heapster-influxdb.kube-system.svc:8086".

Definition defaultsHeapster (hm : option HeapsterMonitoring.t) : HeapsterMonitoring.t :=
  let h := match hm with None => HeapsterMonitoring.zero | Some h => h end in
  let h := if Heapster.Replicas (heapster h) =? 0
           then setHeapster (setReplicas 2) h else h in
  (* read field from KET < v1.5.0 *)
  let h := if negb (HeapsterOptions.HeapsterReplicas (HeapsterMonitoring.Options h) =? 0)
           then setHeapster
                  (setReplicas (HeapsterOptions.HeapsterReplicas (HeapsterMonitoring.Options h))) h
           else h in
  let h := if (Heapster.Sink (heapster h) =? "")%string
           then setHeapster (setSink defaultSink) h else h in
  let h := if (Heapster.ServiceType (heapster h) =? "")%string
           then setHeapster (setServiceType "ClusterIP") h else h in
  if negb (HeapsterOptions.InfluxDBPVCName (HeapsterMonitoring.Options h) =? "")%string
  then setPVCName (HeapsterOptions.InfluxDBPVCName (HeapsterMonitoring.Options h)) h
  else h.

Definition setDefaults (p : Plan.t) : Plan.t :=
  let c := Plan.Cluster p in
  let a := Plan.AddOns p in
  let cni := defaultsCNI (Networking.Type_ (Cluster.Networking c)) (AddOns.CNI a) in
  let dns := if (DNS.Provider (AddOns.DNS a) =? "")%string
             then {| DNS.Provider := "kubedns" |} else AddOns.DNS a in
  let hm := defaultsHeapster (AddOns.HeapsterMonitoring a) in
  let certs := if (Certificates.CAExpiry (Cluster.Certificates c) =? "")%string
               then {| Certificates.Expiry := Certificates.Expiry (Cluster.Certificates c);
                       Certificates.CAExpiry := defaultCAExpiry |}
               else Cluster.Certificates c in
  let dash := match AddOns.Dashboard a with None => Dashboard.zero | Some d => d end in
  {| Plan.Cluster := {| Cluster.Name := Cluster.Name c;
                        Cluster.AdminPassword := Cluster.AdminPassword c;
                        Cluster.DisablePackageInstallation := Cluster.DisablePackageInstallation c;
                        Cluster.AllowPackageInstallation := Cluster.AllowPackageInstallation c;
                        Cluster.DisconnectedInstallation := Cluster.DisconnectedInstallation c;
                        Cluster.SSH := Cluster.SSH c;
                        Cluster.Networking := Cluster.Networking c;
                        Cluster.Certificates := certs |};
     Plan.DockerRegistry := Plan.DockerRegistry p;
     Plan.AddOns := {| AddOns.CNI := Some cni; AddOns.DNS := dns;
                       AddOns.HeapsterMonitoring := Some hm;
                       AddOns.Dashboard := Some dash;
                       AddOns.DashboardDeprecated := AddOns.DashboardDeprecated a;
                       AddOns.PackageManager := AddOns.PackageManager a |};
     Plan.Features := Plan.Features p; Plan.Etcd := Plan.Etcd p; Plan.Master := Plan.Master p;
     Plan.Worker := Plan.Worker p; Plan.Ingress := Plan.Ingress p; Plan.Storage := Plan.Storage p;
     Plan.NFS := Plan.NFS p |}.

(** ** The template builder *)

Record PlanTemplateOptions := {
  EtcdNodes : Z;
  MasterNodes : Z;
  WorkerNodes : Z;
  IngressNodes : Z;
  StorageNodes : Z;
  NFSVolumes : Z;
  AdminPassword : string
}.

(** [for i := 0; i < n; i++ { body }] for a body that does not read [i]:
    the body runs [n] times, and not at all when [n] is negative. *)
Fixpoint iterate {S : Type} (n : nat) (body : S -> S) (s : S) : S :=
  match n with
  | O => s
  | Datatypes.S n' => iterate n' body (body s)
  end.

Definition forLoop {S : Type} (n : Z) (body : S -> S) (s : S) : S :=
  iterate (Z.to_nat n) body s.

(** [append(l, v)] *)
Definition append {A : Type} (l : list A) (v : A) : list A := (l ++ [v])%list.

Definition buildPlanFromTemplateOptions (templateOpts : PlanTemplateOptions) : Plan.t :=
  (* Add-Ons: CNI *)
  let cni := CNI.zero in
  let cni := {| CNI.Provider := cniProviderCalico; CNI.Options := CNI.Options cni |} in
  let cni := setCalico (setMode "overlay") cni in
  let cni := setCalico (setLogLevel "info") cni in
  let cni := setCalico (setWorkloadMTU 1500) cni in
  let cni := setCalico (setFelixInputMTU 1440) cni in
  (* Heapster *)
  let hm := HeapsterMonitoring.zero in
  let hm := setHeapster (setReplicas 2) hm in
  let hm := setHeapster (setServiceType "ClusterIP") hm in
  let hm := setHeapster (setSink defaultSink) hm in
  (* Generate entries for all node types *)
  let volumes :=
    forLoop (NFSVolumes templateOpts)
      (fun vs => append vs {| NFSVolume.Host := ""; NFSVolume.Path := "/" |}) [] in
  let n := Node.zero in
  let etcd := forLoop (EtcdNodes templateOpts) (fun ns => append ns n) [] in
  let master := forLoop (MasterNodes templateOpts) (fun ns => append ns n) [] in
  let worker := forLoop (WorkerNodes templateOpts) (fun ns => append ns n) [] in
  let ingress :=
    if 0 <? IngressNodes templateOpts
    then forLoop (IngressNodes templateOpts) (fun ns => append ns n) []
    else [] in
  let storage :=
    if 0 <? StorageNodes templateOpts
    then forLoop (StorageNodes templateOpts) (fun ns => append ns n) []
    else [] in
  {| Plan.Cluster :=
       {| Cluster.Name := "kubernetes";
          Cluster.AdminPassword := AdminPassword templateOpts;
          Cluster.DisablePackageInstallation := false;
          Cluster.AllowPackageInstallation := None;
          Cluster.DisconnectedInstallation := false;
          Cluster.SSH := {| SSH.User := "kismaticuser"; SSH.Key := "kismaticuser.key"; SSH.Port := 22 |};
          Cluster.Networking :=
            {| Networking.Type_ := "";
               Networking.PodCIDRBlock := "172.16.0.0/16";
               Networking.ServiceCIDRBlock := "172.20.0.0/16";
               Networking.UpdateHostsFiles := false |};
          Cluster.Certificates :=
            {| Certificates.Expiry := "17520h"; Certificates.CAExpiry := defaultCAExpiry |} |};
     Plan.DockerRegistry := DockerRegistry.zero;
     Plan.AddOns :=
       {| AddOns.CNI := Some cni;
          AddOns.DNS := {| DNS.Provider := "kubedns" |};
          AddOns.HeapsterMonitoring := Some hm;
          AddOns.Dashboard := Some {| Dashboard.Disable := false |};
          AddOns.DashboardDeprecated := None;
          AddOns.PackageManager :=
            {| PackageManager.Disable := false; PackageManager.Provider := "helm" |} |};
     Plan.Features := None;
     Plan.Etcd := {| NodeGroup.ExpectedCount := EtcdNodes templateOpts; NodeGroup.Nodes := etcd |};
     Plan.Master := {| NodeGroup.ExpectedCount := MasterNodes templateOpts; NodeGroup.Nodes := master |};
     Plan.Worker := {| NodeGroup.ExpectedCount := WorkerNodes templateOpts; NodeGroup.Nodes := worker |};
     Plan.Ingress := {| NodeGroup.ExpectedCount := IngressNodes templateOpts; NodeGroup.Nodes := ingress |};
     Plan.Storage := {| NodeGroup.ExpectedCount := StorageNodes templateOpts; NodeGroup.Nodes := storage |};
     Plan.NFS := {| NFS.Volumes := volumes |} |}.

(** ** The comment registry *)

Definition commentMap : gmap string (list string) :=
  list_to_map [
    ("cluster.admin_password", ["This password is used to login to the Kubernetes Dashboard and can also be"; "used for administration without a security certificate."]);
    ("cluster.disable_package_installation", ["Set to true if the nodes have the required packages installed."]);
    ("cluster.disconnected_installation", ["Set to true if you are performing a disconnected installation."]);
    ("cluster.networking", ["Networking configuration of your cluster."]);
    ("cluster.networking.pod_cidr_block", ["Kubernetes will assign pods IPs in this range. Do not use a range that is"; "already in use on your local network!"]);
    ("cluster.networking.service_cidr_block", ["Kubernetes will assign services IPs in this range. Do not use a range"; "that is already in use by your local network or pod network!"]);
    ("cluster.networking.update_hosts_files", ["Set to true if your nodes cannot resolve each others' names using DNS."]);
    ("cluster.networking.http_proxy", ["Set the proxy server to use for HTTP connections."]);
    ("cluster.networking.https_proxy", ["Set the proxy server to use for HTTPs connections."]);
    ("cluster.networking.no_proxy", ["List of host names and/or IPs that shouldn't go through any proxy."; "All nodes' 'host' and 'IPs' are always set."]);
    ("cluster.certificates", ["Generated certs configuration."]);
    ("cluster.certificates.expiry", ["Self-signed certificate expiration period in hours; default is 2 years."]);
    ("cluster.certificates.ca_expiry", ["CA certificate expiration period in hours; default is 2 years."]);
    ("cluster.ssh", ["SSH configuration for cluster nodes."]);
    ("cluster.ssh.user", ["This user must be able to sudo without password."]);
    ("cluster.ssh.ssh_key", ["Absolute path to the ssh private key we should use to manage nodes."]);
    ("cluster.kube_apiserver", ["Override configuration of Kubernetes components."]);
    ("cluster.cloud_provider", ["Kubernetes cloud provider integration"]);
    ("cluster.cloud_provider.provider", ["Options: 'aws','azure','cloudstack','fake','gce','mesos','openstack',"; "'ovirt','photon','rackspace','vsphere'."; "Leave empty for bare metal setups or other unsupported providers."]);
    ("cluster.cloud_provider.config", ["Path to the config file, leave empty if provider does not require it."]);
    ("docker", ["Docker daemon configuration of all cluster nodes"]);
    ("etcd", ["Etcd nodes are the ones that run the etcd distributed key-value database."]);
    ("etcd.nodes", ["Provide the hostname and IP of each node. If the node has an IP for internal"; "traffic, provide it in the internalip field. Otherwise, that field can be"; "left blank."]);
    ("master", ["Master nodes are the ones that run the Kubernetes control plane components."]);
    ("worker", ["Worker nodes are the ones that will run your workloads on the cluster."]);
    ("ingress", ["Ingress nodes will run the ingress controllers."]);
    ("storage", ["Storage nodes will be used to create a distributed storage cluster that can"; "be consumed by your workloads."]);
    ("master.load_balanced_fqdn", ["If you have set up load balancing for master nodes, enter the FQDN name here."; "Otherwise, use the IP address of a single master node."]);
    ("master.load_balanced_short_name", ["If you have set up load balancing for master nodes, enter the short name here."; "Otherwise, use the IP address of a single master node."]);
    ("docker.storage.direct_lvm", ["Configure devicemapper in direct-lvm mode (RHEL/CentOS only)."]);
    ("docker.storage.direct_lvm.block_device", ["Path to the block device that will be used for direct-lvm mode. This"; "device will be wiped and used exclusively by docker."]);
    ("docker.storage.direct_lvm.enable_deferred_deletion", ["Set to true if you want to enable deferred deletion when using"; "direct-lvm mode."]);
    ("docker_registry", ["If you want to use an internal registry for the installation or upgrade, you"; "must provide its information here. You must seed this registry before the"; "installation or upgrade of your cluster. This registry must be accessible from"; "all nodes on the cluster."]);
    ("docker_registry.server", ["IP or hostname and port for your registry."]);
    ("docker_registry.CA", ["Absolute path to the certificate authority that should be trusted when"; "connecting to your registry."]);
    ("docker_registry.username", ["Leave blank for unauthenticated access."]);
    ("docker_registry.password", ["Leave blank for unauthenticated access."]);
    ("add_ons", ["Add-ons are additional components that KET installs on the cluster."]);
    ("nfs", ["A set of NFS volumes for use by on-cluster persistent workloads"]);
    ("nfs.nfs_host", ["The host name or ip address of an NFS server."]);
    ("nfs.mount_path", ["The mount path of an NFS share. Must start with /"]);
    ("add_ons.cni.provider", ["Selecting 'custom' will result in a CNI ready cluster, however it is up to"; "you to configure a plugin after the install."; "Options: 'calico','weave','contiv','custom'."]);
    ("add_ons.cni.options.calico.mode", ["Options: 'overlay','routed'."]);
    ("add_ons.cni.options.calico.log_level", ["Options: 'warning','info','debug'."]);
    ("add_ons.cni.options.calico.workload_mtu", ["MTU for the workload interface, configures the CNI config."]);
    ("add_ons.cni.options.calico.felix_input_mtu", ["MTU for the tunnel device used if IPIP is enabled."]);
    ("add_ons.dns.provider", ["Options: 'kubedns','coredns'."]);
    ("add_ons.heapster.options.influxdb.pvc_name", ["Provide the name of the persistent volume claim that you will create"; "after installation. If not specified, the data will be stored in"; "ephemeral storage."]);
    ("add_ons.heapster.options.heapster.service_type", ["Specify kubernetes ServiceType. Defaults to 'ClusterIP'."; "Options: 'ClusterIP','NodePort','LoadBalancer','ExternalName'."]);
    ("add_ons.heapster.options.heapster.sink", ["Specify the sink to store heapster data. Defaults to an influxdb pod"; "running on the cluster."]);
    ("add_ons.package_manager.provider", ["Options: 'helm'"]);
    ("add_ons.rescheduler", ["The rescheduler ensures that critical add-ons remain running on the cluster."])
  ].

(** ** Helpers from package strings *)

Definition nl : string := String "010" "".

(** [strings.Count(s, " ")] *)
Fixpoint countSpaces (s : string) : Z :=
  match s with
  | EmptyString => 0
  | String c s' => (if Ascii.eqb c " " then 1 else 0) + countSpaces s'
  end.

(** [strings.Join(elems, sep)] *)
Fixpoint Join (elems : list string) (sep : string) : string :=
  match elems with
  | [] => ""
  | [e] => e
  | e :: rest => e +:+ sep +:+ Join rest sep
  end.

(** [strings.Repeat(s, count)] *)
Fixpoint Repeat (s : string) (count : nat) : string :=
  match count with
  | O => ""
  | S n => s +:+ Repeat s n
  end.

(** ** The key-path stack

    The slice [s.s] grows at its end, so the bottom of the stack is the
    head of the list.  The mutex of the Go struct guards a stack that is
    local to one call of [Write]; it has no counterpart here. *)

Definition stack := list string.

Definition newStack : stack := [].

Definition Push (v : string) (s : stack) : stack := (s ++ [v])%list.

Definition Pop (s : stack) : result (string * stack) :=
  match length s with
  | O => Err "Empty Stack"
  | S _ => Ok (List.last s "", removelast s)
  end.

(** ** Write: the annotating line scan *)

Fixpoint countLeadingSpace (s : string) : nat :=
  match s with
  | String c s' => if Ascii.eqb c " " then S (countLeadingSpace s') else O
  | EmptyString => O
  end.

Definition getCommentedLine (line : string) (commentLines : list string) (addNewLine : bool) : string :=
  let b := "" in
  let b := if addNewLine then b +:+ nl else b in
  let b := fold_left
             (fun b c => (b +:+ Repeat " " (countLeadingSpace line)) +:+ ("# " +:+ c +:+ nl))
             commentLines b in
  b +:+ (line +:+ nl).

(** The variables of [Write] that live across iterations of its loop;
    [f] is what has been written to the file so far. *)
Module Scan.
Record t := {
  oneTimeComments : gmap string (list string);
  f : string;
  s : stack;
  prevIndent : Z;
  addNewLineBeforeComment : bool
}.
End Scan.

(** [for i := 0; i <= n; i++ { if _, err := s.Pop(); err != nil { return err } }],
    given the number of iterations. *)
Fixpoint popLoop (iterations : nat) (s : stack) : result stack :=
  match iterations with
  | O => Ok s
  | S n =>
      match Pop s with
      | Err e => Err e
      | Ok (_, s') => popLoop n s'
      end
  end.

(** The fall-through of the loop body: print the line as it is. *)
Definition emitPlain (st : Scan.t) (text : string) : Scan.t :=
  {| Scan.oneTimeComments := Scan.oneTimeComments st;
     Scan.f := Scan.f st +:+ (text +:+ nl);
     Scan.s := Scan.s st;
     Scan.prevIndent := Scan.prevIndent st;
     Scan.addNewLineBeforeComment := true |}.

(** One iteration of the scanner loop on the line [text].  The second
    component is the error with which [Write] returns from inside the
    loop, if it does.  Writes to the file are taken to succeed. *)
Definition scanLine (st : Scan.t) (text : string) : Scan.t * option string :=
  match FindStringSubmatch yamlKeyRE text with
  | Some (m0 :: m1 :: _) =>
      let indent := Z.quot (countSpaces m0) 2 in
      (* Add a new line if we are leaving a major indentation block *)
      let st :=
        if indent <? Scan.prevIndent st
        then {| Scan.oneTimeComments := Scan.oneTimeComments st;
                Scan.f := Scan.f st +:+ nl;
                Scan.s := Scan.s st;
                Scan.prevIndent := Scan.prevIndent st;
                Scan.addNewLineBeforeComment := false |}
        else st in
      let popped :=
        if indent <=? Scan.prevIndent st
        then popLoop (Z.to_nat (Scan.prevIndent st - indent + 1)) (Scan.s st)
        else Ok (Scan.s st) in
      match popped with
      | Err e => (st, Some e)
      | Ok s =>
          let s := Push m1 s in
          let st := {| Scan.oneTimeComments := Scan.oneTimeComments st;
                       Scan.f := Scan.f st;
                       Scan.s := s;
                       Scan.prevIndent := indent;
                       Scan.addNewLineBeforeComment := Scan.addNewLineBeforeComment st |} in
          (* Full key match (e.g. "cluster.networking.pod_cidr") *)
          match Scan.oneTimeComments st !! Join s "." with
          | Some thiscomment =>
              ({| Scan.oneTimeComments := delete m1 (Scan.oneTimeComments st);
                  Scan.f := Scan.f st +:+
                            getCommentedLine text thiscomment (Scan.addNewLineBeforeComment st);
                  Scan.s := Scan.s st;
                  Scan.prevIndent := Scan.prevIndent st;
                  Scan.addNewLineBeforeComment := true |}, None)
          | None => (emitPlain st text, None)
          end
      end
  | _ => (emitPlain st text, None)
  end.

(** The scanner loop over the lines of the marshalled plan. *)
Fixpoint scanLoop (st : Scan.t) (lines : list string) : Scan.t * option string :=
  match lines with
  | [] => (st, None)
  | text :: rest =>
      match scanLine st text with
      | (st', Some e) => (st', Some e)
      | (st', None) => scanLoop st' rest
      end
  end.

(** The state in which [Write] enters the loop. *)
Definition scanInit : Scan.t :=
  {| Scan.oneTimeComments := commentMap;      (* a copy of the global comment map *)
     Scan.f := "";
     Scan.s := newStack;
     Scan.prevIndent := -1;
     Scan.addNewLineBeforeComment := true |}.

(** [bufio.Scanner] with its default split function: lines end at a
    newline, one carriage return before it is dropped, and a last line
    without newline is returned if it is not empty.  Lines are assumed to
    fit the scanner's buffer. *)
Fixpoint dropCR (line : string) : string :=
  match line with
  | EmptyString => ""
  | String c rest =>
      match rest with
      | EmptyString => if Ascii.eqb c "013" then "" else line
      | _ => String c (dropCR rest)
      end
  end.

Fixpoint scanLines (cur : string) (data : string) : list string :=
  match data with
  | EmptyString => if (cur =? "")%string then [] else [dropCR cur]
  | String c data' =>
      if Ascii.eqb c "010" then dropCR cur :: scanLines "" data'
      else scanLines (cur +:+ String c "") data'
  end.

(** The part of [Write] after the file has been created: what the file
    holds when [Write] returns, and the error it returns. *)
Definition annotate (bytez : string) : string * option string :=
  let (st, err) := scanLoop scanInit (scanLines "" bytez) in
  (Scan.f st, err).

(** ** The file planner

    The YAML codec is the library gopkg.in/yaml.v2 and the file system is
    the operating system's; both are parameters of the embedding.  A file
    system maps the path of each existing file to its content, and
    [os.Create] fails on the paths in [denied]. *)

Record FileSystem := {
  files : gmap string string;
  denied : gset string
}.

Definition ReadFile (fs : FileSystem) (name : string) : result string :=
  match files fs !! name with
  | Some d => Ok d
  | None => Err ("open " +:+ name +:+ ": no such file or directory")
  end.

Definition Create (fs : FileSystem) (name : string) : result FileSystem :=
  if decide (name ∈ denied fs)
  then Err ("open " +:+ name +:+ ": permission denied")
  else Ok {| files := <[name := ""]> (files fs); denied := denied fs |}.

Record FilePlanner := { File : string }.

Section Planner.

Variable yamlUnmarshal : string -> result Plan.t.
Variable yamlMarshal : Plan.t -> result string.

Definition Read (fp : FilePlanner) (fs : FileSystem) : result Plan.t :=
  match ReadFile fs (File fp) with
  | Err err => Err ("could not read file: " +:+ err)
  | Ok d =>
      match yamlUnmarshal d with
      | Err err => Err ("failed to unmarshal plan: " +:+ err)
      | Ok p =>
          (* read deprecated fields and set it the new version of the cluster file *)
          let p := readDeprecatedFields p in
          (* set nil values to defaults *)
          let p := setDefaults p in
          Ok p
      end
  end.

Definition Write (fp : FilePlanner) (p : Plan.t) (fs : FileSystem) : FileSystem * option string :=
  match yamlMarshal p with
  | Err marshalErr => (fs, Some ("error marshalling plan to yaml: " +:+ marshalErr))
  | Ok bytez =>
      match Create fs (File fp) with
      | Err err => (fs, Some ("error making plan file: " +:+ err))
      | Ok fs =>
          let (written, err) := annotate bytez in
          ({| files := <[File fp := written]> (files fs); denied := denied fs |}, err)
      end
  end.

(** [WritePlanTemplate], with the planner [w] as its [Write] method. *)
Definition WritePlanTemplate (E : Entropy) (fuel : nat)
           (planTemplateOpts : PlanTemplateOptions)
           (w : Plan.t -> FileSystem -> FileSystem * option string)
           (fs : FileSystem) : option (FileSystem * option string) :=
  let withPassword pw :=
    {| EtcdNodes := EtcdNodes planTemplateOpts; MasterNodes := MasterNodes planTemplateOpts;
       WorkerNodes := WorkerNodes planTemplateOpts; IngressNodes := IngressNodes planTemplateOpts;
       StorageNodes := StorageNodes planTemplateOpts; NFSVolumes := NFSVolumes planTemplateOpts;
       AdminPassword := pw |} in
  let finish opts :=
    let p := buildPlanFromTemplateOptions opts in
    match w p fs with
    | (fs', Some err) => (fs', Some ("error writing installation plan template: " +:+ err))
    | (fs', None) => (fs', None)
    end in
  if (AdminPassword planTemplateOpts =? "")%string then
    match generateAlphaNumericPassword E fuel with
    | None => None
    | Some (Err err, _) => Some (fs, Some ("error generating random password: " +:+ err))
    | Some (Ok pw, _) => Some (finish (withPassword pw))
    end
  else Some (finish planTemplateOpts).

End Planner.

(** ** What the default resolver may change

    A field is unset when it holds its zero value: the empty string, a
    zero count or a nil pointer.  [keepStr a b] says that a string field
    with value [a] before and [b] after was either unset or left alone;
    likewise for counts and pointers.  Booleans and lists have no unset
    state for the resolver and must stay as they are.

    [fillsUnset legacy p q] relates a plan [p] to the plan [q] the
    resolver made of it.  With [legacy = false] every field must be unset
    or left alone.  With [legacy = true] the two structured heapster
    fields that have a flat predecessor from KET < v1.5.0 instead take
    the predecessor's value whenever that one is set. *)

Definition keepStr (a b : string) : Prop := a = "" \/ b = a.

Definition keepInt (a b : Z) : Prop := a = 0 \/ b = a.

Definition keepPtr {A : Type} (R : A -> A -> Prop) (a b : option A) : Prop :=
  match a with
  | None => True
  | Some x => match b with Some y => R x y | None => False end
  end.

Definition keepCNI (c c' : CNI.t) : Prop :=
  keepStr (CNI.Provider c) (CNI.Provider c') /\
  keepStr (CalicoOptions.Mode (calico c)) (CalicoOptions.Mode (calico c')) /\
  keepStr (CalicoOptions.LogLevel (calico c)) (CalicoOptions.LogLevel (calico c')) /\
  keepInt (CalicoOptions.WorkloadMTU (calico c)) (CalicoOptions.WorkloadMTU (calico c')) /\
  keepInt (CalicoOptions.FelixInputMTU (calico c)) (CalicoOptions.FelixInputMTU (calico c')).

Definition keepHeapster (legacy : bool) (h h' : HeapsterMonitoring.t) : Prop :=
  let o := HeapsterMonitoring.Options h in
  let o' := HeapsterMonitoring.Options h' in
  (if legacy && negb (HeapsterOptions.HeapsterReplicas o =? 0)
   then Heapster.Replicas (heapster h') = HeapsterOptions.HeapsterReplicas o
   else keepInt (Heapster.Replicas (heapster h)) (Heapster.Replicas (heapster h'))) /\
  keepStr (Heapster.ServiceType (heapster h)) (Heapster.ServiceType (heapster h')) /\
  keepStr (Heapster.Sink (heapster h)) (Heapster.Sink (heapster h')) /\
  (if legacy && negb (HeapsterOptions.InfluxDBPVCName o =? "")%string
   then InfluxDB.PVCName (HeapsterOptions.InfluxDB o') = HeapsterOptions.InfluxDBPVCName o
   else keepStr (InfluxDB.PVCName (HeapsterOptions.InfluxDB o))
                (InfluxDB.PVCName (HeapsterOptions.InfluxDB o'))) /\
  keepInt (HeapsterOptions.HeapsterReplicas o) (HeapsterOptions.HeapsterReplicas o') /\
  keepStr (HeapsterOptions.InfluxDBPVCName o) (HeapsterOptions.InfluxDBPVCName o').

Definition keepCluster (c c' : Cluster.t) : Prop :=
  keepStr (Cluster.Name c) (Cluster.Name c') /\
  keepStr (Cluster.AdminPassword c) (Cluster.AdminPassword c') /\
  Cluster.DisablePackageInstallation c' = Cluster.DisablePackageInstallation c /\
  keepPtr eq (Cluster.AllowPackageInstallation c) (Cluster.AllowPackageInstallation c') /\
  Cluster.DisconnectedInstallation c' = Cluster.DisconnectedInstallation c /\
  keepStr (SSH.User (Cluster.SSH c)) (SSH.User (Cluster.SSH c')) /\
  keepStr (SSH.Key (Cluster.SSH c)) (SSH.Key (Cluster.SSH c')) /\
  keepInt (SSH.Port (Cluster.SSH c)) (SSH.Port (Cluster.SSH c')) /\
  keepStr (Networking.Type_ (Cluster.Networking c)) (Networking.Type_ (Cluster.Networking c')) /\
  keepStr (Networking.PodCIDRBlock (Cluster.Networking c))
          (Networking.PodCIDRBlock (Cluster.Networking c')) /\
  keepStr (Networking.ServiceCIDRBlock (Cluster.Networking c))
          (Networking.ServiceCIDRBlock (Cluster.Networking c')) /\
  Networking.UpdateHostsFiles (Cluster.Networking c') =
  Networking.UpdateHostsFiles (Cluster.Networking c) /\
  keepStr (Certificates.Expiry (Cluster.Certificates c))
          (Certificates.Expiry (Cluster.Certificates c')) /\
  keepStr (Certificates.CAExpiry (Cluster.Certificates c))
          (Certificates.CAExpiry (Cluster.Certificates c')).

Definition keepRegistry (r r' : DockerRegistry.t) : Prop :=
  keepStr (DockerRegistry.Server r) (DockerRegistry.Server r') /\
  keepStr (DockerRegistry.Address r) (DockerRegistry.Address r') /\
  keepInt (DockerRegistry.Port r) (DockerRegistry.Port r').

Definition keepAddOns (legacy : bool) (a a' : AddOns.t) : Prop :=
  keepPtr keepCNI (AddOns.CNI a) (AddOns.CNI a') /\
  keepStr (DNS.Provider (AddOns.DNS a)) (DNS.Provider (AddOns.DNS a')) /\
  keepPtr (keepHeapster legacy) (AddOns.HeapsterMonitoring a) (AddOns.HeapsterMonitoring a') /\
  keepPtr eq (AddOns.Dashboard a) (AddOns.Dashboard a') /\
  keepPtr eq (AddOns.DashboardDeprecated a) (AddOns.DashboardDeprecated a') /\
  PackageManager.Disable (AddOns.PackageManager a') = PackageManager.Disable (AddOns.PackageManager a) /\
  keepStr (PackageManager.Provider (AddOns.PackageManager a))
          (PackageManager.Provider (AddOns.PackageManager a')).

Definition keepGroup (g g' : NodeGroup.t) : Prop :=
  keepInt (NodeGroup.ExpectedCount g) (NodeGroup.ExpectedCount g') /\
  NodeGroup.Nodes g' = NodeGroup.Nodes g.

Definition fillsUnset (legacy : bool) (p q : Plan.t) : Prop :=
  keepCluster (Plan.Cluster p) (Plan.Cluster q) /\
  keepRegistry (Plan.DockerRegistry p) (Plan.DockerRegistry q) /\
  keepAddOns legacy (Plan.AddOns p) (Plan.AddOns q) /\
  keepPtr eq (Plan.Features p) (Plan.Features q) /\
  keepGroup (Plan.Etcd p) (Plan.Etcd q) /\
  keepGroup (Plan.Master p) (Plan.Master q) /\
  keepGroup (Plan.Worker p) (Plan.Worker q) /\
  keepGroup (Plan.Ingress p) (Plan.Ingress q) /\
  keepGroup (Plan.Storage p) (Plan.Storage q) /\
  NFS.Volumes (Plan.NFS q) = NFS.Volumes (Plan.NFS p).

(** The structured heapster fields of a plan, through the pointer to the
    monitoring block. *)
Definition structuredReplicas (p : Plan.t) : option Z :=
  (fun h => Heapster.Replicas (heapster h)) <$> AddOns.HeapsterMonitoring (Plan.AddOns p).

Definition structuredPVCName (p : Plan.t) : option string :=
  (fun h => InfluxDB.PVCName (HeapsterOptions.InfluxDB (HeapsterMonitoring.Options h)))
    <$> AddOns.HeapsterMonitoring (Plan.AddOns p).

(** A plan written for KET < v1.5.0 and edited since: it carries both
    the flat and the structured heapster fields. *)
Definition legacyHeapsterPlan : Plan.t :=
  {| Plan.Cluster := Cluster.zero; Plan.DockerRegistry := DockerRegistry.zero;
     Plan.AddOns :=
       {| AddOns.CNI := None; AddOns.DNS := DNS.zero;
          AddOns.HeapsterMonitoring :=
            Some {| HeapsterMonitoring.Options :=
                      {| HeapsterOptions.Heapster :=
                           {| Heapster.Replicas := 3; Heapster.ServiceType := ""; Heapster.Sink := "" |};
                         HeapsterOptions.InfluxDB := {| InfluxDB.PVCName := "new-claim" |};
                         HeapsterOptions.HeapsterReplicas := 5;
                         HeapsterOptions.InfluxDBPVCName := "old-claim" |} |};
          AddOns.Dashboard := None; AddOns.DashboardDeprecated := None;
          AddOns.PackageManager := PackageManager.zero |};
     Plan.Features := None; Plan.Etcd := NodeGroup.zero; Plan.Master := NodeGroup.zero;
     Plan.Worker := NodeGroup.zero; Plan.Ingress := NodeGroup.zero; Plan.Storage := NodeGroup.zero;
     Plan.NFS := NFS.zero |}.

(** A plan written for KET v1.3.3 that also sets the current
    package-manager fields. *)
Definition ket133Plan : Plan.t :=
  {| Plan.Cluster := Cluster.zero; Plan.DockerRegistry := DockerRegistry.zero;
     Plan.AddOns :=
       {| AddOns.CNI := None; AddOns.DNS := DNS.zero; AddOns.HeapsterMonitoring := None;
          AddOns.Dashboard := None; AddOns.DashboardDeprecated := None;
          AddOns.PackageManager :=
            {| PackageManager.Disable := false; PackageManager.Provider := "tiller" |} |};
     Plan.Features :=
       Some {| Features.PackageManager := Some {| DeprecatedPackageManager.Enabled := false |} |};
     Plan.Etcd := NodeGroup.zero; Plan.Master := NodeGroup.zero;
     Plan.Worker := NodeGroup.zero; Plan.Ingress := NodeGroup.zero; Plan.Storage := NodeGroup.zero;
     Plan.NFS := NFS.zero |}.

(** ** Sample inputs *)

(** The scenario of a three-node etcd cluster with one NFS volume. *)
Definition scenarioOptions : PlanTemplateOptions :=
  {| EtcdNodes := 3; MasterNodes := 1; WorkerNodes := 2; IngressNodes := 0;
     StorageNodes := 0; NFSVolumes := 1; AdminPassword := "" |}.

(** A file system that holds one, empty, plan file. *)
Definition emptyPlanFile : FileSystem :=
  {| files := {[ "kismatic-cluster.yaml" := "" ]}; denied := ∅ |}.


(** ** Key lines

    A line shows a key when somewhere in it a non-empty run of key
    characters is followed by any number of spaces and a colon. *)
Definition showsKey (text : string) : Prop :=
  exists pre key sp post,
    text = pre +:+ key +:+ sp +:+ ":" +:+ post /\
    key <> "" /\ allIn keyChar key = true /\ allIn (char " ") sp = true.

(** How many characters of a class a quantifier admits. *)
Definition admits (q : quant) (m : string) : Prop :=
  match q with
  | One => String.length m = 1%nat
  | Plus => m <> ""
  | Star => True
  end.

(** The NFS section of a marshalled plan with two volumes, as the scanner
    splits it into lines. *)
Definition nfsTwoVolumes : list string :=
  [ "nfs:";
    "  nfs_volume:";
    "  - nfs_host: 10.0.0.1";
    "    mount_path: /";
    "  - nfs_host: 10.0.0.2";
    "    mount_path: /" ].

Definition nfsHostComment : string := "  # The host name or ip address of an NFS server.".

(** How often [sub] occurs among the lines written to a file. *)
Definition countLine (sub : string) (written : string) : nat :=
  length (filter (fun l => l = sub) (scanLines "" written)).


(** ** Further notions used by the properties below *)


(** A text as the lines it is made of, each ended by a newline. *)
Fixpoint unlines (ls : list string) : string :=
  match ls with
  | [] => ""
  | l :: rest => l +:+ nl +:+ unlines rest
  end.

Fixpoint hasNewline (s : string) : bool :=
  match s with
  | EmptyString => false
  | String c s' => Ascii.eqb c "010" || hasNewline s'
  end.

Fixpoint dropSpaces (s : string) : string :=
  match s with
  | String c s' => if Ascii.eqb c " " then dropSpaces s' else s
  | EmptyString => ""
  end.

(** A comment line: its first character after the indentation is [#]. *)
Definition isComment (l : string) : bool :=
  match dropSpaces l with
  | String c _ => Ascii.eqb c "#"
  | EmptyString => false
  end.

(** The lines of a text that carry data: neither empty nor a comment. *)
Definition payload (ls : list string) : list string :=
  List.filter (fun l => negb ((l =? "")%string || isComment l)) ls.

(** The comment lines of [getCommentedLine], one per registry line. *)
Definition commentLine (indent : nat) (c : string) : string :=
  Repeat " " indent +:+ ("# " +:+ c).

(** The indentation level that the scan computes for a line, if the line
    shows a key. *)
Definition keyIndent (text : string) : option Z :=
  match FindStringSubmatch yamlKeyRE text with
  | Some (m0 :: _ :: _) => Some (Z.quot (countSpaces m0) 2)
  | _ => None
  end.

(** Lines whose keys never sit more than one level deeper than the key
    before them, [prev] being the level of the last key seen. *)
Fixpoint stepwise (prev : Z) (lines : list string) : Prop :=
  match lines with
  | [] => True
  | text :: rest =>
      match keyIndent text with
      | Some indent => indent <= prev + 1 /\ stepwise indent rest
      | None => stepwise prev rest
      end
  end.

(** A plan whose CNI block is present but empty. *)
Definition bareCNIPlan : Plan.t :=
  {| Plan.Cluster := Cluster.zero; Plan.DockerRegistry := DockerRegistry.zero;
     Plan.AddOns :=
       {| AddOns.CNI := Some CNI.zero; AddOns.DNS := DNS.zero; AddOns.HeapsterMonitoring := None;
          AddOns.Dashboard := None; AddOns.DashboardDeprecated := None;
          AddOns.PackageManager := PackageManager.zero |};
     Plan.Features := None; Plan.Etcd := NodeGroup.zero; Plan.Master := NodeGroup.zero;
     Plan.Worker := NodeGroup.zero; Plan.Ingress := NodeGroup.zero; Plan.Storage := NodeGroup.zero;
     Plan.NFS := NFS.zero |}.


(** What a line added to the file can be: the line scanned, an empty
    line, or a comment line of the given map. *)
Definition addedLine (comments : gmap string (list string)) (text l : string) : Prop :=
  l = text \/ l = "" \/
  exists k cs c n, comments !! k = Some cs /\ In c cs /\ l = commentLine n c.


(** The first [n] candidates of the generator are passwords that fail
    the validation. *)
Definition rejectedBefore (E : Entropy) (n : nat) : Prop :=
  forall i, (i < n)%nat ->
            exists s, candidate E i (reqsAt E i) = Ok s /\ MatchString alphaNumericRE s = false.

(** The template options with the password replaced, as
    [WritePlanTemplate] does with a generated password. *)
Definition setAdminPassword (pw : string) (o : PlanTemplateOptions) : PlanTemplateOptions :=
  {| EtcdNodes := EtcdNodes o; MasterNodes := MasterNodes o; WorkerNodes := WorkerNodes o;
     IngressNodes := IngressNodes o; StorageNodes := StorageNodes o;
     NFSVolumes := NFSVolumes o; AdminPassword := pw |}.

(** How [WritePlanTemplate] reports the outcome of the planner's write. *)
Definition wrapWriteError (r : FileSystem * option string) : FileSystem * option string :=
  match r with
  | (fs', Some err) => (fs', Some ("error writing installation plan template: " +:+ err))
  | (fs', None) => (fs', None)
  end.

(** A generator that fails at its third call, after two candidates with
    punctuation. *)
Definition failingEntropy : Entropy :=
  {| draw := fun n => Z.of_nat n;
     candidate := fun n _ => if (n <? 2)%nat then Ok "no-good!" else Err "entropy exhausted" |}.

(** ** Package checks of the inspector (pkg/inspector/check/package.go) *)

Module check.

Record PackageQuery := { Name : string; Version : string }.

(** The interface [PackageManager] is declared elsewhere in the package;
    [Check] calls these two of its methods, each of which answers with a
    boolean or an error. *)
Record PackageManager := {
  IsInstalled : PackageQuery -> result bool;
  IsAvailable : PackageQuery -> result bool
}.

Record PackageCheck := {
  Query : PackageQuery;                (* the field PackageQuery *)
  ShouldNotBeInstalled : bool;
  Manager : PackageManager;            (* the field PackageManager *)
  InstallationDisabled : bool
}.

(** [PackageCheck.Check]: the verdict and the error, [None] being nil. *)
Definition Check (c : PackageCheck) : bool * option string :=
  match IsInstalled (Manager c) (Query c) with
  | Err err => (false, Some ("failed to determine if package is installed: " +:+ err))
  | Ok installed =>
      if negb (InstallationDisabled c) then
        if installed && ShouldNotBeInstalled c
        then (false, Some "package should not be installed")
        else (true, None)
      else if ShouldNotBeInstalled c then (true, None)
      else if installed then (true, None)
      else
        match IsAvailable (Manager c) (Query c) with
        | Err err =>
            (false, Some ("failed to determine if package is available for install: " +:+ err))
        | Ok available =>
            if negb available
            then (false, Some "package is not installed, and is not available in known package repositories")
            else (false, Some "package is not installed, but is available in a package repository")
        end
  end.

End check.

(** ** Package rules of the inspector (pkg/inspector/rule/package.go) *)

Module rule.

(** The embedded [Meta] of the Go struct plays no part in the methods
    below and is left out. *)
Record PackageDependency := {
  PackageName : string;
  PackageVersion : string;
  AnyVersion : bool;
  ShouldNotBeInstalled : bool
}.

Definition quote : string := String "034" "".

(** [PackageDependency.Name] *)
Definition Name (p : PackageDependency) : string :=
  let name := "Package " +:+ quote +:+ PackageName p +:+ " " +:+ PackageVersion p +:+ quote in
  if AnyVersion p then "Package " +:+ quote +:+ PackageName p +:+ quote else name.

(** [PackageDependency.IsRemoteRule] *)
Definition IsRemoteRule (p : PackageDependency) : bool := false.

(** [PackageDependency.Validate]: the errors found, the empty list being
    nil. *)
Definition Validate (p : PackageDependency) : list string :=
  let err := [] in
  let err := if (PackageName p =? "")%string
             then append err "PackageName cannot be empty" else err in
  let err := if negb (AnyVersion p) && (PackageVersion p =? "")%string
             then append err "PackageVersion cannot be empty" else err in
  if (0 <? length err)%nat then err else [].

End rule.

(** A package manager that finds nothing installed and everything
    available. *)
Definition freshNode : check.PackageManager :=
  {| check.IsInstalled := fun _ => Ok false; check.IsAvailable := fun _ => Ok true |}.

Definition dockerCheck (shouldNot disabled : bool) : check.PackageCheck :=
  {| check.Query := {| check.Name := "docker-engine"; check.Version := "1.12.6" |};
     check.ShouldNotBeInstalled := shouldNot;
     check.Manager := freshNode;
     check.InstallationDisabled := disabled |}.
(** * Properties *)

(** ** The patterns at work *)

Example yamlKeyRE_plain : FindStringSubmatch yamlKeyRE "cluster:" = Some ["cluster:"; "cluster"].
Proof. reflexivity. Qed.

Example yamlKeyRE_item : FindStringSubmatch yamlKeyRE "  - nfs_host: /a" = Some ["  - nfs_host:"; "nfs_host"].
Proof. reflexivity. Qed.

Example yamlKeyRE_inner : FindStringSubmatch yamlKeyRE "ab cd : e" = Some [" cd :"; "cd"].
Proof. reflexivity. Qed.

Example yamlKeyRE_backtrack : FindStringSubmatch yamlKeyRE "  __:" = Some ["  __:"; "_"].
Proof. reflexivity. Qed.

Example yamlKeyRE_none : FindStringSubmatch yamlKeyRE "  - 10.0.0.1" = None.
Proof. reflexivity. Qed.

Example alphaNumericRE_zero : MatchString alphaNumericRE "abc0" = false.
Proof. reflexivity. Qed.

Example generate_stuck : generateAlphaNumericPassword stuckEntropy 100 =
  Some (Err errAlphaNumeric, {| draws := 12; calls := 6 |}).
Proof. reflexivity. Qed.

Example generate_lucky : generateAlphaNumericPassword luckyEntropy 6 =
  Some (Ok "Xk3mPq9TrWv1bNc7", {| draws := 6; calls := 3 |}).
Proof. reflexivity. Qed.

Example generate_short_of_fuel : generateAlphaNumericPassword stuckEntropy 5 = None.
Proof. reflexivity. Qed.

(** ** Strings *)

Lemma append_cons (a : ascii) (s t : string) : String a s +:+ t = String a (s +:+ t).
Proof. reflexivity. Qed.

Lemma append_empty_l (s : string) : "" +:+ s = s.
Proof. reflexivity. Qed.

Lemma append_empty_r (s : string) : s +:+ "" = s.
Proof. induction s as [|a s IH]; [reflexivity | now rewrite append_cons, IH]. Qed.

Lemma append_assoc (a b c : string) : (a +:+ b) +:+ c = a +:+ (b +:+ c).
Proof. induction a as [|x a IH]; [reflexivity | now rewrite !append_cons, IH]. Qed.

(** ** The matcher

    Soundness: what a successful run consumed is made of the classes of
    the pattern.  Completeness: if the subject can be split according to
    the pattern, the run succeeds (not necessarily with that split,
    since longer repetitions are tried first). *)

Lemma append_length (a b : string) :
  String.length (a +:+ b) = (String.length a + String.length b)%nat.
Proof. induction a as [|x a IH]; [reflexivity | rewrite append_cons; simpl; now rewrite IH]. Qed.

Section Greedy.

Context {R : Type}.
Variable c : class.
Variable k : nat -> string -> option R.

Lemma greedy_star_sound (s : string) :
  forall pos m r,
    greedy_star c k pos s = Some (m, r) ->
    allIn c m = true /\
    exists rest, s = m +:+ rest /\ k (pos + String.length m)%nat rest = Some r.
Proof.
  induction s as [|a s IH]; intros pos m r H; simpl in H.
  - destruct (k pos "") as [r'|] eqn:Hk; [|discriminate].
    injection H as <- <-. split; [reflexivity|].
    exists "". now rewrite Nat.add_0_r.
  - assert (Hstop : match k pos (String a s) with Some r => Some ("", r) | None => None end
                    = Some (m, r) ->
                    allIn c m = true /\
                    exists rest, String a s = m +:+ rest /\
                                 k (pos + String.length m)%nat rest = Some r).
    { destruct (k pos (String a s)) as [r'|] eqn:Hk; [|discriminate].
      intros [= <- <-]. split; [reflexivity|].
      exists (String a s). now rewrite Nat.add_0_r. }
    destruct (c a) eqn:Ha; [|auto].
    destruct (greedy_star c k (S pos) s) as [[m' r']|] eqn:Hg; [|auto].
    injection H as <- <-.
    destruct (IH _ _ _ Hg) as (Hall & rest & -> & Hk).
    split; [simpl; now rewrite Ha|].
    exists rest. split; [reflexivity|].
    simpl. now rewrite Nat.add_succ_r.
Qed.

Lemma greedy_star_complete (m : string) :
  forall rest pos r,
    allIn c m = true ->
    k (pos + String.length m)%nat rest = Some r ->
    is_Some (greedy_star c k pos (m +:+ rest)).
Proof.
  induction m as [|a m IH]; intros rest pos r Hall Hk.
  - rewrite append_empty_l. simpl in Hk. rewrite Nat.add_0_r in Hk.
    destruct rest as [|b rest]; simpl; rewrite Hk.
    + eauto.
    + destruct (c b); [destruct (greedy_star c k (S pos) rest) as [[]|]|]; eauto.
  - simpl in Hall. apply andb_true_iff in Hall as [Ha Hall].
    rewrite append_cons. simpl. rewrite Ha.
    simpl in Hk. rewrite Nat.add_succ_r in Hk.
    destruct (IH rest (S pos) r Hall Hk) as [[m' r'] ->]. eauto.
Qed.

Lemma greedy_sound (q : quant) (s : string) (pos : nat) (m : string) (r : R) :
  greedy q c k pos s = Some (m, r) ->
  allIn c m = true /\ admits q m /\
  exists rest, s = m +:+ rest /\ k (pos + String.length m)%nat rest = Some r.
Proof.
  destruct q; simpl.
  - destruct s as [|a s]; [discriminate|].
    destruct (c a) eqn:Ha; [|discriminate].
    destruct (k (S pos) s) as [r'|] eqn:Hk; [|discriminate].
    intros [= <- <-]. simpl. rewrite Ha. repeat split.
    exists s. split; [reflexivity|]. now rewrite Nat.add_1_r.
  - intros H. apply greedy_star_sound in H as (Hall & Hrest). auto.
  - destruct s as [|a s]; [discriminate|].
    destruct (c a) eqn:Ha; [|discriminate].
    destruct (greedy_star c k (S pos) s) as [[m' r']|] eqn:Hg; [|discriminate].
    intros [= <- <-].
    apply greedy_star_sound in Hg as (Hall & rest & -> & Hk).
    simpl. rewrite Ha. repeat split; [exact Hall | discriminate |].
    exists rest. split; [reflexivity|]. now rewrite Nat.add_succ_r.
Qed.

Lemma greedy_complete (q : quant) (m rest : string) (pos : nat) (r : R) :
  allIn c m = true -> admits q m ->
  k (pos + String.length m)%nat rest = Some r ->
  is_Some (greedy q c k pos (m +:+ rest)).
Proof.
  intros Hall Hq Hk. destruct q; simpl in Hq |- *.
  - destruct m as [|a [|b m]]; try discriminate Hq.
    simpl in Hall. rewrite andb_true_r in Hall.
    rewrite append_cons, append_empty_l, Hall.
    simpl in Hk. rewrite Nat.add_1_r in Hk. rewrite Hk. eauto.
  - eapply greedy_star_complete; eauto.
  - destruct m as [|a m]; [congruence|].
    simpl in Hall. apply andb_true_iff in Hall as [Ha Hall].
    rewrite append_cons, Ha.
    simpl in Hk. rewrite Nat.add_succ_r in Hk.
    destruct (greedy_star_complete m rest (S pos) r Hall Hk) as [[m' r'] ->]. eauto.
Qed.

End Greedy.

Lemma search_sound (re : regexp) (s : string) :
  forall pos r,
    search re pos s = Some r ->
    exists pre s', s = pre +:+ s' /\ run re (pos + String.length pre)%nat s' = Some r.
Proof.
  induction s as [|a s IH]; intros pos r H; cbn [search] in H.
  - destruct (run re pos "") eqn:Hr; [|discriminate].
    exists "", "". now rewrite Nat.add_0_r, <- H.
  - destruct (run re pos (String a s)) eqn:Hr.
    + exists "", (String a s). now rewrite Nat.add_0_r, <- H.
    + destruct (IH _ _ H) as (pre & s' & -> & Hrun).
      exists (String a pre), s'. split; [reflexivity|].
      simpl. now rewrite Nat.add_succ_r.
Qed.

Lemma search_complete (re : regexp) (pre : string) :
  forall s' pos r,
    run re (pos + String.length pre)%nat s' = Some r ->
    is_Some (search re pos (pre +:+ s')).
Proof.
  induction pre as [|a pre IH]; intros s' pos r H.
  - rewrite append_empty_l. simpl in H. rewrite Nat.add_0_r in H.
    destruct s'; cbn [search]; rewrite H; eauto.
  - rewrite append_cons. cbn [search].
    destruct (run re pos (String a (pre +:+ s'))); [eauto|].
    apply (IH s' (S pos) r). simpl in H. now rewrite Nat.add_succ_r in H.
Qed.

Lemma run_Rep_sound (q : quant) (c : class) (rest : regexp) (pos : nat) (s whole : string)
      (groups : list string) :
  run (Rep q c :: rest) pos s = Some (whole, groups) ->
  exists m whole' tail,
    whole = m +:+ whole' /\ allIn c m = true /\ admits q m /\
    s = m +:+ tail /\ run rest (pos + String.length m)%nat tail = Some (whole', groups).
Proof.
  cbn [run]. destruct (greedy q c (run rest) pos s) as [[m [whole' groups']]|] eqn:Hg;
    [|discriminate].
  intros [= <- <-]. apply greedy_sound in Hg as (Hall & Hq & tail & -> & Hk).
  now exists m, whole', tail.
Qed.

Lemma run_Capture_sound (q : quant) (c : class) (rest : regexp) (pos : nat) (s whole : string)
      (groups : list string) :
  run (Capture q c :: rest) pos s = Some (whole, groups) ->
  exists m whole' groups' tail,
    whole = m +:+ whole' /\ groups = m :: groups' /\ allIn c m = true /\ admits q m /\
    s = m +:+ tail /\ run rest (pos + String.length m)%nat tail = Some (whole', groups').
Proof.
  cbn [run]. destruct (greedy q c (run rest) pos s) as [[m [whole' groups']]|] eqn:Hg;
    [|discriminate].
  intros [= <- <-]. apply greedy_sound in Hg as (Hall & Hq & tail & -> & Hk).
  now exists m, whole', groups', tail.
Qed.

Lemma run_Rep_complete (q : quant) (c : class) (rest : regexp) (pos : nat) (m tail : string) :
  allIn c m = true -> admits q m ->
  is_Some (run rest (pos + String.length m)%nat tail) ->
  is_Some (run (Rep q c :: rest) pos (m +:+ tail)).
Proof.
  intros Hall Hq [r Hr]. cbn [run].
  destruct (greedy_complete c (run rest) q m tail pos r Hall Hq Hr) as [[m' [w g]] ->]. eauto.
Qed.

Lemma run_Capture_complete (q : quant) (c : class) (rest : regexp) (pos : nat) (m tail : string) :
  allIn c m = true -> admits q m ->
  is_Some (run rest (pos + String.length m)%nat tail) ->
  is_Some (run (Capture q c :: rest) pos (m +:+ tail)).
Proof.
  intros Hall Hq [r Hr]. cbn [run].
  destruct (greedy_complete c (run rest) q m tail pos r Hall Hq Hr) as [[m' [w g]] ->]. eauto.
Qed.

(** ** The key pattern *)

(** A match of [yamlKeyRE] is a run of non-letters, the key, a run of
    spaces and a colon; the key is the one captured group. *)
Lemma run_yamlKeyRE_sound (pos : nat) (s whole : string) (groups : list string) :
  run yamlKeyRE pos s = Some (whole, groups) ->
  exists lead key sp rest,
    groups = [key] /\
    whole = lead +:+ key +:+ sp +:+ ":" /\
    s = whole +:+ rest /\
    allIn (fun c => negb (letter c)) lead = true /\
    key <> "" /\ allIn keyChar key = true /\ allIn (char " ") sp = true.
Proof.
  unfold yamlKeyRE. intros H.
  apply run_Rep_sound in H as (lead & w1 & t1 & -> & Hlead & _ & -> & H).
  apply run_Capture_sound in H as (key & w2 & g2 & t2 & -> & -> & Hkey & Hne & -> & H).
  apply run_Rep_sound in H as (sp & w3 & t3 & -> & Hsp & _ & -> & H).
  apply run_Rep_sound in H as (col & w4 & t4 & -> & Hcol & Hone & -> & H).
  cbn [run] in H. injection H as <- <-.
  destruct col as [|x [|y col]]; try discriminate Hone.
  simpl in Hcol. rewrite andb_true_r in Hcol.
  apply Ascii.eqb_eq in Hcol as ->.
  exists lead, key, sp, t4. rewrite append_empty_r, !append_assoc. repeat split; auto.
Qed.

Lemma run_yamlKeyRE_complete (pos : nat) (key sp post : string) :
  key <> "" -> allIn keyChar key = true -> allIn (char " ") sp = true ->
  is_Some (run yamlKeyRE pos (key +:+ sp +:+ ":" +:+ post)).
Proof.
  intros Hne Hkey Hsp. unfold yamlKeyRE.
  apply (run_Rep_complete Star _ _ pos ""); [reflexivity | exact I |].
  apply run_Capture_complete; [exact Hkey | exact Hne |].
  apply run_Rep_complete; [exact Hsp | exact I |].
  apply (run_Rep_complete One _ _ _ ":"); [reflexivity | reflexivity |].
  cbn [run]. eauto.
Qed.

(** [FindStringSubmatch] with the key pattern finds nothing exactly on
    the lines that show no key. *)
Lemma FindStringSubmatch_yamlKeyRE_None (text : string) :
  FindStringSubmatch yamlKeyRE text = None <-> ~ showsKey text.
Proof.
  unfold FindStringSubmatch. split.
  - intros H (pre & key & sp & post & -> & Hne & Hkey & Hsp).
    destruct (run_yamlKeyRE_complete (0 + String.length pre) key sp post Hne Hkey Hsp)
      as [r Hr].
    destruct (search_complete yamlKeyRE pre _ 0%nat r Hr) as [[w g] Hs].
    rewrite Hs in H. discriminate H.
  - intros Hno. destruct (search yamlKeyRE 0 text) as [[whole groups]|] eqn:Hs; [|reflexivity].
    exfalso. apply Hno.
    apply search_sound in Hs as (pre & s' & -> & Hrun).
    apply run_yamlKeyRE_sound in Hrun
      as (lead & key & sp & rest & _ & -> & -> & _ & Hne & Hkey & Hsp).
    exists (pre +:+ lead), key, sp, rest. rewrite !append_assoc. repeat split; auto.
Qed.

(** What it finds otherwise: the whole match and the key. *)
Lemma FindStringSubmatch_yamlKeyRE_Some (text : string) (matched : list string) :
  FindStringSubmatch yamlKeyRE text = Some matched ->
  exists lead key sp,
    matched = [lead +:+ key +:+ sp +:+ ":"; key] /\
    allIn (fun c => negb (letter c)) lead = true /\
    key <> "" /\ allIn keyChar key = true /\ allIn (char " ") sp = true.
Proof.
  unfold FindStringSubmatch.
  destruct (search yamlKeyRE 0 text) as [[whole groups]|] eqn:Hs; [|discriminate].
  intros [= <-].
  apply search_sound in Hs as (pre & s' & -> & Hrun).
  apply run_yamlKeyRE_sound in Hrun
    as (lead & key & sp & rest & -> & -> & _ & Hlead & Hne & Hkey & Hsp).
  now exists lead, key, sp.
Qed.

(** ** The alphanumeric pattern *)

Lemma greedy_star_to_end (c : class) (s : string) (pos : nat) :
  greedy_star c (run [EndText]) pos s = if allIn c s then Some (s, ("", [])) else None.
Proof.
  revert pos. induction s as [|a s IH]; intros pos; simpl.
  - reflexivity.
  - destruct (c a) eqn:Ha; simpl.
    + rewrite IH. destruct (allIn c s); reflexivity.
    + reflexivity.
Qed.

Lemma run_alphaNumericRE (s : string) (pos : nat) :
  run alphaNumericRE pos s =
  if (pos =? 0)%nat && negb (s =? "")%string && allIn alphaNum19 s
  then Some (s, []) else None.
Proof.
  unfold alphaNumericRE. cbn [run].
  destruct (pos =? 0)%nat; [|reflexivity].
  destruct s as [|a s]; [reflexivity|].
  cbn [greedy allIn andb negb String.eqb].
  destruct (alphaNum19 a); [|reflexivity].
  change (fun (_ : nat) (s0 : string) =>
            match s0 with "" => Some ("", []) | String _ _ => None end)
    with (run [EndText]).
  rewrite greedy_star_to_end.
  destruct (allIn alphaNum19 s); simpl; [|reflexivity].
  now rewrite append_empty_r.
Qed.

Lemma search_alphaNumericRE_later (s : string) (pos : nat) :
  search alphaNumericRE (S pos) s = None.
Proof.
  revert pos. induction s as [|a s IH]; intros pos;
    cbn [search]; rewrite run_alphaNumericRE; simpl; auto.
Qed.

(** The pattern accepts exactly the non-empty strings over its class. *)
Lemma MatchString_alphaNumericRE (s : string) :
  MatchString alphaNumericRE s = negb (s =? "")%string && allIn alphaNum19 s.
Proof.
  unfold MatchString. destruct s as [|a s]; [reflexivity|].
  cbn [search]. rewrite run_alphaNumericRE, search_alphaNumericRE_later.
  cbn [Nat.eqb andb]. now destruct (negb _ && _).
Qed.

Lemma allIn_In (c : class) (s : string) :
  allIn c s = true <-> forall a, In a (list_ascii_of_string s) -> c a = true.
Proof.
  induction s as [|x s IH]; simpl.
  - split; [intros _ a [] | reflexivity].
  - rewrite andb_true_iff, IH. split.
    + intros [Hx Hs] a [<-|Ha]; auto.
    + intros H. split; [apply H; now left | intros a Ha; apply H; now right].
Qed.

Lemma alphaNum19_sound (c : ascii) :
  alphaNum19 c = true ->
  (letter c = true \/ between "1" "9" c = true) /\ c <> "0"%char /\ punctuation c = false.
Proof.
  destruct c as [[] [] [] [] [] [] [] []]; vm_compute; intros H;
    try discriminate H; repeat split; auto; discriminate.
Qed.

(** ** The retry loop of the password generator *)

Section PasswordLoop.

Variable E : Entropy.

Lemma generateLoop_unfold (fuel : nat) (attempts : Z) (st : Consumed) :
  generateLoop E (S fuel) attempts st =
  let st3 := {| draws := S (S (draws st)); calls := S (calls st) |} in
  match candidate E (calls st)
          {| MinimumTotalLength := 16;
             Uppercase := draw E (draws st) mod 6;
             Digits := draw E (S (draws st)) mod 6;
             Punctuation := -1 |} with
  | Err e => Some (Err e, st3)
  | Ok pass =>
      if MatchString alphaNumericRE pass then Some (Ok pass, st3)
      else if attempts =? 5 then Some (Err errAlphaNumeric, st3)
      else generateLoop E fuel (attempts + 1) st3
  end.
Proof. reflexivity. Qed.

(** From [attempts] in 0..5 the loop returns within [6 - attempts]
    iterations, whatever the generator does. *)
Lemma generateLoop_returns (fuel : nat) :
  forall (attempts : Z) (st : Consumed),
    0 <= attempts <= 5 ->
    6 - attempts <= Z.of_nat fuel ->
    exists r st',
      generateLoop E fuel attempts st = Some (r, st') /\
      (calls st < calls st')%nat /\
      Z.of_nat (calls st') <= Z.of_nat (calls st) + (6 - attempts).
Proof.
  induction fuel as [|fuel IH]; intros attempts st Ha Hf; [lia|].
  rewrite generateLoop_unfold. cbv zeta.
  destruct (candidate E _ _) as [pass|e].
  - destruct (MatchString alphaNumericRE pass).
    + eexists _, _. split; [reflexivity|]. simpl. lia.
    + destruct (attempts =? 5) eqn:H5.
      * eexists _, _. split; [reflexivity|]. simpl. lia.
      * apply Z.eqb_neq in H5.
        destruct (IH (attempts + 1) {| draws := S (S (draws st)); calls := S (calls st) |})
          as (r & st' & Hr & Hlo & Hhi); [lia | lia |].
        exists r, st'. split; [exact Hr|]. simpl in *. lia.
  - eexists _, _. split; [reflexivity|]. simpl. lia.
Qed.

(** A returned password is the candidate of the last call, and it
    passed validation. *)
Lemma generateLoop_success (fuel : nat) :
  forall (attempts : Z) (st st' : Consumed) (pass : string),
    draws st = (2 * calls st)%nat ->
    generateLoop E fuel attempts st = Some (Ok pass, st') ->
    exists n, (calls st <= n)%nat /\ calls st' = S n /\
              candidate E n (reqsAt E n) = Ok pass /\
              MatchString alphaNumericRE pass = true.
Proof.
  induction fuel as [|fuel IH]; intros attempts st st' pass Hd H; [discriminate|].
  rewrite generateLoop_unfold in H. cbv zeta in H.
  destruct (candidate E _ _) as [cand|e] eqn:Hc; [|discriminate].
  destruct (MatchString alphaNumericRE cand) eqn:Hm.
  - injection H as <- <-. exists (calls st). repeat split; auto.
    unfold reqsAt. rewrite <- Hd. replace (draws st + 1)%nat with (S (draws st)) by lia.
    exact Hc.
  - destruct (attempts =? 5); [discriminate|].
    apply IH in H; [|simpl; lia].
    destruct H as (n & Hn & Hrest). exists n. split; [simpl in Hn; lia | exact Hrest].
Qed.

(** With a generator that never produces an alphanumeric candidate,
    the loop gives up in the iteration that finds [attempts == 5]. *)
Lemma generateLoop_exhausts (k : nat) :
  neverAlphaNumeric E ->
  forall (fuel : nat) (st : Consumed),
    (k <= 5)%nat -> (k < fuel)%nat ->
    generateLoop E fuel (5 - Z.of_nat k) st =
    Some (Err errAlphaNumeric,
          {| draws := draws st + 2 * S k; calls := calls st + S k |}).
Proof.
  intros Hnever. induction k as [|k IH]; intros fuel st Hk Hf;
    (destruct fuel as [|fuel]; [lia|]);
    rewrite generateLoop_unfold; cbv zeta;
    destruct (Hnever (calls st)
                {| MinimumTotalLength := 16;
                   Uppercase := draw E (draws st) mod 6;
                   Digits := draw E (S (draws st)) mod 6;
                   Punctuation := -1 |}) as (s & -> & ->).
  - simpl. do 3 f_equal; lia.
  - replace (5 - Z.of_nat (S k) =? 5) with false by (symmetry; apply Z.eqb_neq; lia).
    replace (5 - Z.of_nat (S k) + 1) with (5 - Z.of_nat k) by lia.
    rewrite IH by lia. simpl. do 3 f_equal; lia.
Qed.

End PasswordLoop.

(** C4: [generateAlphaNumericPassword] is a bounded retry loop.  Given
    fuel for six iterations it always returns, after one to six calls of
    the candidate generator; a password it returns is the candidate of
    one of those at most six calls and passed the alphanumeric
    validation; and with a generator that never produces an alphanumeric
    candidate it returns the definite error after exactly six calls. *)
Theorem generateAlphaNumericPassword_bounded (E : Entropy) (fuel : nat) :
  (6 <= fuel)%nat ->
  (exists r st,
      generateAlphaNumericPassword E fuel = Some (r, st) /\
      (1 <= calls st <= 6)%nat /\
      forall pass, r = Ok pass ->
        exists n, (n < 6)%nat /\ calls st = S n /\
                  candidate E n (reqsAt E n) = Ok pass /\
                  MatchString alphaNumericRE pass = true) /\
  (neverAlphaNumeric E ->
   generateAlphaNumericPassword E fuel =
   Some (Err errAlphaNumeric, {| draws := 12; calls := 6 |})).
Proof.
  intros Hfuel. unfold generateAlphaNumericPassword. split.
  - destruct (generateLoop_returns E fuel 0 {| draws := 0; calls := 0 |})
      as (r & st & Hr & Hlo & Hhi); [lia | lia |].
    simpl in Hlo, Hhi. exists r, st. split; [exact Hr|]. split; [lia|].
    intros pass ->.
    destruct (generateLoop_success E fuel 0 {| draws := 0; calls := 0 |} st pass eq_refl Hr)
      as (n & _ & Hn & Hc & Hm).
    exists n. repeat split; auto. lia.
  - intros Hnever.
    exact (generateLoop_exhausts E 5 Hnever fuel {| draws := 0; calls := 0 |} (le_n 5) Hfuel).
Qed.

Lemma generateAlphaNumericPassword_bounded_witness :
  generateAlphaNumericPassword stuckEntropy 6 =
  Some (Err errAlphaNumeric, {| draws := 12; calls := 6 |}).
Proof.
  refine (proj2 (generateAlphaNumericPassword_bounded stuckEntropy 6 _) _).
  - lia.
  - intros n reqs. eexists. split; reflexivity.
Defined.

(** Hence [WritePlanTemplate], asked to generate the password from such
    a generator, reports the failure and writes nothing. *)
Lemma WritePlanTemplate_exhausted (E : Entropy) (fuel : nat) (o : PlanTemplateOptions)
      (w : Plan.t -> FileSystem -> FileSystem * option string) (fs : FileSystem) :
  neverAlphaNumeric E -> (6 <= fuel)%nat -> AdminPassword o = "" ->
  WritePlanTemplate E fuel o w fs =
  Some (fs, Some ("error generating random password: " +:+ errAlphaNumeric)).
Proof.
  intros Hnever Hfuel Hpw. unfold WritePlanTemplate, generateAlphaNumericPassword.
  rewrite Hpw, String.eqb_refl.
  pose proof (generateLoop_exhausts E 5 Hnever fuel {| draws := 0; calls := 0 |} (le_n 5) Hfuel)
    as H.
  change (5 - Z.of_nat 5) with 0 in H. now rewrite H.
Qed.

(** C10: every password that [generateAlphaNumericPassword] returns
    matches [^[a-zA-Z1-9]+$]: it is not empty, and each of its characters
    is an ASCII letter or a digit from 1 to 9, so it contains neither the
    digit 0 nor punctuation. *)
Theorem generated_password_alphanumeric (E : Entropy) (fuel : nat) (pass : string) (st : Consumed) :
  generateAlphaNumericPassword E fuel = Some (Ok pass, st) ->
  MatchString alphaNumericRE pass = true /\
  pass <> "" /\
  forall c, In c (list_ascii_of_string pass) ->
            (letter c = true \/ between "1" "9" c = true) /\
            c <> "0"%char /\ punctuation c = false.
Proof.
  intros H.
  destruct (generateLoop_success E fuel 0 {| draws := 0; calls := 0 |} st pass eq_refl H)
    as (n & _ & _ & _ & Hm).
  split; [exact Hm|].
  rewrite MatchString_alphaNumericRE in Hm. apply andb_true_iff in Hm as [Hne Hall].
  split.
  - intros ->. discriminate Hne.
  - intros c Hc. apply alphaNum19_sound. now apply (allIn_In alphaNum19 pass).
Qed.

Lemma generated_password_alphanumeric_witness :
  MatchString alphaNumericRE "Xk3mPq9TrWv1bNc7" = true /\
  "Xk3mPq9TrWv1bNc7" <> "" /\
  forall c, In c (list_ascii_of_string "Xk3mPq9TrWv1bNc7") ->
            (letter c = true \/ between "1" "9" c = true) /\
            c <> "0"%char /\ punctuation c = false.
Proof.
  apply (generated_password_alphanumeric luckyEntropy 6 "Xk3mPq9TrWv1bNc7"
           {| draws := 6; calls := 3 |}).
  reflexivity.
Defined.

(** ** Migration and default resolution *)

Lemma keepStr_refl (a : string) : keepStr a a.
Proof. now right. Qed.

Lemma keepInt_refl (a : Z) : keepInt a a.
Proof. now right. Qed.

Lemma keepPtr_refl {A : Type} (a : option A) : keepPtr eq a a.
Proof. destruct a; simpl; auto. Qed.

Lemma keepStr_default (a d : string) : keepStr a (if (a =? "")%string then d else a).
Proof. destruct (String.eqb_spec a ""); [now left | now right]. Qed.

Lemma keepInt_default (a d : Z) : keepInt a (if a =? 0 then d else a).
Proof. destruct (Z.eqb_spec a 0); [now left | now right]. Qed.

Create HintDb keep.

#[local] Hint Resolve keepStr_refl keepInt_refl keepStr_default keepInt_default : keep.
#[local] Hint Extern 1 (keepPtr eq _ _) => apply keepPtr_refl : keep.

(** The package manager settings pass through the default resolver. *)
Lemma setDefaults_PackageManager (p : Plan.t) :
  AddOns.PackageManager (Plan.AddOns (setDefaults p)) = AddOns.PackageManager (Plan.AddOns p).
Proof. reflexivity. Qed.

Lemma readDeprecatedFields_PackageManager (p : Plan.t) :
  AddOns.PackageManager (Plan.AddOns (readDeprecatedFields p)) =
  match deprecatedPackageManager p with
  | Some old => {| PackageManager.Disable := negb (DeprecatedPackageManager.Enabled old);
                   PackageManager.Provider := ket133PackageManagerProvider |}
  | None => AddOns.PackageManager (Plan.AddOns p)
  end.
Proof.
  unfold readDeprecatedFields.
  destruct (deprecatedPackageManager p) as [old|];
  repeat match goal with
         | |- context [match ?x with _ => _ end] => destruct x
         end; reflexivity.
Qed.

(** C1: when the deprecated [features.package_manager] block is present
    with [enabled = false], migration sets the current package manager
    to disabled with the provider "helm", whatever the current fields
    held before; default resolution keeps that, so [Read] returns it. *)
Theorem deprecated_package_manager_wins
        (yamlUnmarshal : string -> result Plan.t)
        (p : Plan.t) (old : DeprecatedPackageManager.t) :
  deprecatedPackageManager p = Some old ->
  DeprecatedPackageManager.Enabled old = false ->
  let migrated := {| PackageManager.Disable := true; PackageManager.Provider := "helm" |} in
  AddOns.PackageManager (Plan.AddOns (readDeprecatedFields p)) = migrated /\
  forall (fp : FilePlanner) (fs : FileSystem) (d : string),
    ReadFile fs (File fp) = Ok d ->
    yamlUnmarshal d = Ok p ->
    exists q, Read yamlUnmarshal fp fs = Ok q /\
              AddOns.PackageManager (Plan.AddOns q) = migrated.
Proof.
  intros Hold Hen migrated.
  assert (Hm : AddOns.PackageManager (Plan.AddOns (readDeprecatedFields p)) = migrated).
  { rewrite readDeprecatedFields_PackageManager, Hold, Hen. reflexivity. }
  split; [exact Hm|].
  intros fp fs d Hd Hu. unfold Read. rewrite Hd, Hu.
  eexists. split; [reflexivity|].
  rewrite setDefaults_PackageManager. exact Hm.
Qed.

Lemma deprecated_package_manager_wins_witness :
  PackageManager.Disable (AddOns.PackageManager (Plan.AddOns ket133Plan)) = false /\
  AddOns.PackageManager (Plan.AddOns (readDeprecatedFields ket133Plan)) =
  {| PackageManager.Disable := true; PackageManager.Provider := "helm" |}.
Proof.
  split; [reflexivity|].
  refine (proj1 (deprecated_package_manager_wins (fun _ => Ok ket133Plan) ket133Plan
                   {| DeprecatedPackageManager.Enabled := false |} _ _));
    reflexivity.
Defined.

(** The default resolver leaves alone what it has no default for. *)
Lemma setDefaults_elsewhere (p : Plan.t) :
  let q := setDefaults p in
  Plan.DockerRegistry q = Plan.DockerRegistry p /\
  Plan.Features q = Plan.Features p /\
  Plan.Etcd q = Plan.Etcd p /\ Plan.Master q = Plan.Master p /\
  Plan.Worker q = Plan.Worker p /\ Plan.Ingress q = Plan.Ingress p /\
  Plan.Storage q = Plan.Storage p /\ Plan.NFS q = Plan.NFS p /\
  Cluster.SSH (Plan.Cluster q) = Cluster.SSH (Plan.Cluster p) /\
  Cluster.Networking (Plan.Cluster q) = Cluster.Networking (Plan.Cluster p) /\
  AddOns.PackageManager (Plan.AddOns q) = AddOns.PackageManager (Plan.AddOns p) /\
  AddOns.DashboardDeprecated (Plan.AddOns q) = AddOns.DashboardDeprecated (Plan.AddOns p).
Proof. repeat split. Qed.

Ltac eqb_cases :=
  repeat match goal with
         | |- context [(?a =? ?b)%string] =>
             is_var a; destruct (String.eqb_spec a b); cbn
         | |- context [?a =? ?b] =>
             is_var a; destruct (Z.eqb_spec a b); cbn
         end.

Lemma defaultsCNI_keeps (ty : string) (c : CNI.t) : keepCNI c (defaultsCNI ty (Some c)).
Proof.
  destruct c as [prov [[mode lvl wl fx]]].
  unfold keepCNI, defaultsCNI, calico, setCalico. cbn.
  eqb_cases; cbn; unfold keepStr, keepInt; repeat split; auto.
Qed.

Lemma defaultsHeapster_keeps (h : HeapsterMonitoring.t) :
  keepHeapster true h (defaultsHeapster (Some h)).
Proof.
  destruct h as [[[repl st sink] [pvc] oldRepl oldPvc]].
  unfold keepHeapster, defaultsHeapster, heapster, setHeapster, setPVCName. cbn.
  eqb_cases; cbn; unfold keepStr, keepInt; repeat split; auto; try congruence.
Qed.

(** C3, as the code has it: the default resolver changes no field that
    carries a value, except that the structured heapster replicas and
    InfluxDB PVC name take the value of their flat predecessor from
    KET < v1.5.0 whenever that predecessor is set. *)
Theorem setDefaults_fills_unset_or_legacy (p : Plan.t) :
  fillsUnset true p (setDefaults p).
Proof.
  destruct p as [c r a ft e m w i s n].
  destruct c as [name pw dis allow disc ssh net [exp ca]].
  destruct a as [cni [dns] hm dash dashOld pm].
  unfold fillsUnset, keepCluster, keepRegistry, keepAddOns, keepGroup. cbn.
  repeat split; auto with keep.
  - destruct (ca =? "")%string; cbn; now right.
  - destruct (String.eqb_spec ca ""); cbn; [now left | now right].
  - destruct cni as [c|]; cbn; [apply defaultsCNI_keeps | exact I].
  - destruct (String.eqb_spec dns ""); cbn; [now left | now right].
  - destruct hm as [h|]; cbn; [apply defaultsHeapster_keeps | exact I].
  - destruct dash; cbn; auto.
Qed.

(** C3 without that exception does not hold: a plan that sets the
    structured replicas to 3 and the PVC name to "new-claim" leaves the
    resolver with 5 and "old-claim", the values of its flat fields. *)
Lemma setDefaults_overwrites_set_fields :
  structuredReplicas legacyHeapsterPlan = Some 3 /\
  structuredReplicas (setDefaults legacyHeapsterPlan) = Some 5 /\
  structuredPVCName legacyHeapsterPlan = Some "new-claim" /\
  structuredPVCName (setDefaults legacyHeapsterPlan) = Some "old-claim" /\
  ~ fillsUnset false legacyHeapsterPlan (setDefaults legacyHeapsterPlan).
Proof.
  repeat split.
  intros (_ & _ & (_ & _ & Hh & _) & _).
  cbn in Hh. destruct Hh as ([H|H] & _); discriminate H.
Qed.

(** ** The template builder *)

Lemma iterate_append {A : Type} (v : A) (n : nat) :
  forall l : list A, iterate n (fun l => append l v) l = (l ++ replicate n v)%list.
Proof.
  induction n as [|n IH]; intros l; simpl.
  - now rewrite app_nil_r.
  - rewrite IH. unfold append. now rewrite <- app_assoc.
Qed.

Lemma forLoop_append {A : Type} (v : A) (n : Z) :
  forLoop n (fun l => append l v) [] = replicate (Z.to_nat n) v.
Proof. unfold forLoop. now rewrite iterate_append. Qed.

Lemma guarded_forLoop_append {A : Type} (v : A) (n : Z) :
  (if 0 <? n then forLoop n (fun l => append l v) [] else []) = replicate (Z.to_nat n) v.
Proof.
  destruct (Z.ltb_spec 0 n) as [H|H].
  - apply forLoop_append.
  - now replace (Z.to_nat n) with 0%nat by lia.
Qed.

(** The node and volume lists of a built plan, in closed form. *)
Lemma buildPlanFromTemplateOptions_lists (o : PlanTemplateOptions) :
  let p := buildPlanFromTemplateOptions o in
  NodeGroup.Nodes (Plan.Etcd p) = replicate (Z.to_nat (EtcdNodes o)) Node.zero /\
  NodeGroup.Nodes (Plan.Master p) = replicate (Z.to_nat (MasterNodes o)) Node.zero /\
  NodeGroup.Nodes (Plan.Worker p) = replicate (Z.to_nat (WorkerNodes o)) Node.zero /\
  NodeGroup.Nodes (Plan.Ingress p) = replicate (Z.to_nat (IngressNodes o)) Node.zero /\
  NodeGroup.Nodes (Plan.Storage p) = replicate (Z.to_nat (StorageNodes o)) Node.zero /\
  NFS.Volumes (Plan.NFS p) =
    replicate (Z.to_nat (NFSVolumes o)) {| NFSVolume.Host := ""; NFSVolume.Path := "/" |}.
Proof.
  unfold buildPlanFromTemplateOptions. cbv zeta.
  cbn [Plan.Etcd Plan.Master Plan.Worker Plan.Ingress Plan.Storage Plan.NFS
       NodeGroup.Nodes NFS.Volumes].
  rewrite !guarded_forLoop_append, !forLoop_append. repeat split.
Qed.

(** C5: for non-negative counts the built plan has exactly the requested
    number of nodes per role and of NFS volumes; every node is the empty
    placeholder and every volume has an empty host and the mount path
    "/". *)
Theorem buildPlanFromTemplateOptions_counts (o : PlanTemplateOptions) :
  0 <= EtcdNodes o -> 0 <= MasterNodes o -> 0 <= WorkerNodes o ->
  0 <= IngressNodes o -> 0 <= StorageNodes o -> 0 <= NFSVolumes o ->
  let p := buildPlanFromTemplateOptions o in
  (Z.of_nat (length (NodeGroup.Nodes (Plan.Etcd p))) = EtcdNodes o /\
   Z.of_nat (length (NodeGroup.Nodes (Plan.Master p))) = MasterNodes o /\
   Z.of_nat (length (NodeGroup.Nodes (Plan.Worker p))) = WorkerNodes o /\
   Z.of_nat (length (NodeGroup.Nodes (Plan.Ingress p))) = IngressNodes o /\
   Z.of_nat (length (NodeGroup.Nodes (Plan.Storage p))) = StorageNodes o /\
   Z.of_nat (length (NFS.Volumes (Plan.NFS p))) = NFSVolumes o) /\
  (forall g, In g [Plan.Etcd p; Plan.Master p; Plan.Worker p; Plan.Ingress p; Plan.Storage p] ->
             Forall (fun n => n = Node.zero) (NodeGroup.Nodes g)) /\
  Forall (fun v => v = {| NFSVolume.Host := ""; NFSVolume.Path := "/" |})
         (NFS.Volumes (Plan.NFS p)).
Proof.
  intros He Hm Hw Hi Hs Hv p.
  destruct (buildPlanFromTemplateOptions_lists o) as (E1 & E2 & E3 & E4 & E5 & E6).
  fold p in E1, E2, E3, E4, E5, E6.
  rewrite E1, E2, E3, E4, E5, E6, !length_replicate.
  split; [repeat split; lia|]. split.
  - intros g Hg.
    repeat (destruct Hg as [<-|Hg];
            [rewrite ?E1, ?E2, ?E3, ?E4, ?E5; apply Forall_replicate; reflexivity|]).
    destruct Hg.
  - apply Forall_replicate. reflexivity.
Qed.

Lemma buildPlanFromTemplateOptions_counts_witness :
  Z.of_nat (length (NodeGroup.Nodes (Plan.Etcd (buildPlanFromTemplateOptions scenarioOptions)))) = 3 /\
  Forall (fun v => v = {| NFSVolume.Host := ""; NFSVolume.Path := "/" |})
         (NFS.Volumes (Plan.NFS (buildPlanFromTemplateOptions scenarioOptions))).
Proof.
  assert (H := buildPlanFromTemplateOptions_counts scenarioOptions).
  cbn zeta in H.
  destruct H as ((H & _) & _ & Hv); cbn; try lia.
  split; [exact H | exact Hv].
Defined.

(** ** Read *)

(** Migration and default resolution leave a freshly built plan as it
    is: the builder sets every value that the resolver would. *)
Lemma Read_normalisation_fixes_built_plan (o : PlanTemplateOptions) :
  setDefaults (readDeprecatedFields (buildPlanFromTemplateOptions o)) =
  buildPlanFromTemplateOptions o.
Proof. reflexivity. Qed.

Lemma Read_Ok (yamlUnmarshal : string -> result Plan.t)
      (fp : FilePlanner) (fs : FileSystem) (q : Plan.t) :
  Read yamlUnmarshal fp fs = Ok q ->
  exists d p, ReadFile fs (File fp) = Ok d /\ yamlUnmarshal d = Ok p /\
              q = setDefaults (readDeprecatedFields p).
Proof.
  unfold Read. destruct (ReadFile fs (File fp)) as [d|] eqn:Hd; [|discriminate].
  destruct (yamlUnmarshal d) as [p|] eqn:Hp; [|discriminate].
  intros [= <-]. now exists d, p.
Qed.

(** C8: the plan that a successful [Read] returns and the plan that the
    template builder returns both have their [AddOns.CNI] block
    allocated. *)
Theorem CNI_always_present
        (yamlUnmarshal : string -> result Plan.t)
        (fp : FilePlanner) (fs : FileSystem) (q : Plan.t) (o : PlanTemplateOptions) :
  (Read yamlUnmarshal fp fs = Ok q -> AddOns.CNI (Plan.AddOns q) <> None) /\
  AddOns.CNI (Plan.AddOns (buildPlanFromTemplateOptions o)) <> None.
Proof.
  split.
  - intros H. apply Read_Ok in H as (d & p & _ & _ & ->). discriminate.
  - discriminate.
Qed.

Lemma CNI_always_present_witness :
  Read (fun _ => Ok Plan.zero) {| File := "kismatic-cluster.yaml" |} emptyPlanFile =
    Ok (setDefaults Plan.zero) /\
  AddOns.CNI (Plan.AddOns (setDefaults Plan.zero)) <> None.
Proof.
  split; [reflexivity|].
  refine (proj1 (CNI_always_present (fun _ => Ok Plan.zero)
                   {| File := "kismatic-cluster.yaml" |} emptyPlanFile
                   (setDefaults Plan.zero) scenarioOptions) _).
  reflexivity.
Defined.

(** ** The line scan of Write *)


Lemma Pop_nil : Pop [] = Err "Empty Stack".
Proof. reflexivity. Qed.

Lemma Pop_Push (v : string) (s : stack) : Pop (Push v s) = Ok (v, s).
Proof.
  unfold Pop, Push. rewrite length_app. simpl.
  replace (length s + 1)%nat with (S (length s)) by lia.
  now rewrite last_last, removelast_last.
Qed.

(** The only error of the pop loop is that of [Pop] on an empty stack. *)
Lemma popLoop_Err (n : nat) :
  forall (s : stack) (e : string), popLoop n s = Err e -> e = "Empty Stack".
Proof.
  induction n as [|n IH]; intros s e; simpl; [discriminate|].
  unfold Pop. destruct (length s).
  - now intros [= <-].
  - apply IH.
Qed.

(** Once the stack is empty with a pop still to come, the loop fails. *)
Lemma popLoop_underflow (n : nat) :
  forall (s : stack) (k : nat),
    (k < n)%nat -> popLoop k s = Ok [] -> popLoop n s = Err "Empty Stack".
Proof.
  induction n as [|n IH]; intros s k Hk Hpop; [lia|].
  destruct k as [|k]; simpl in Hpop.
  - injection Hpop as ->. reflexivity.
  - simpl. destruct (Pop s) as [[v s']|e]; [|discriminate].
    apply (IH s' k); [lia | exact Hpop].
Qed.

(** C7: a line on which the key pattern finds nothing is written as it
    is, followed by a newline, and leaves the key-path stack (as well as
    the recorded indentation and the working copy of the comments)
    unchanged. *)
Theorem unmatched_line_emitted_verbatim (st : Scan.t) (text : string) :
  FindStringSubmatch yamlKeyRE text = None ->
  exists st',
    scanLine st text = (st', None) /\
    Scan.f st' = Scan.f st +:+ (text +:+ nl) /\
    Scan.s st' = Scan.s st /\
    Scan.prevIndent st' = Scan.prevIndent st /\
    Scan.oneTimeComments st' = Scan.oneTimeComments st.
Proof.
  intros H. exists (emitPlain st text). unfold scanLine. rewrite H. repeat split.
Qed.

Lemma unmatched_line_emitted_verbatim_witness :
  FindStringSubmatch yamlKeyRE "  - 10.0.0.1" = None /\
  exists st',
    scanLine scanInit "  - 10.0.0.1" = (st', None) /\
    Scan.f st' = Scan.f scanInit +:+ ("  - 10.0.0.1" +:+ nl) /\
    Scan.s st' = Scan.s scanInit /\
    Scan.prevIndent st' = Scan.prevIndent scanInit /\
    Scan.oneTimeComments st' = Scan.oneTimeComments scanInit.
Proof.
  split; [reflexivity|].
  apply (unmatched_line_emitted_verbatim scanInit "  - 10.0.0.1"). reflexivity.
Defined.

(** The same, for the lines that show no key. *)
Corollary keyless_line_emitted_verbatim (st : Scan.t) (text : string) :
  ~ showsKey text ->
  scanLine st text = (emitPlain st text, None).
Proof.
  intros H. apply FindStringSubmatch_yamlKeyRE_None in H.
  unfold scanLine. now rewrite H.
Qed.




(** An iteration that annotates its line deletes the key of the line
    from the working copy: the last segment of the annotated path, not
    the path. *)
Lemma scanLine_annotated (st : Scan.t) (text m0 m1 : string) (more : list string)
      (s : stack) (thiscomment : list string) :
  FindStringSubmatch yamlKeyRE text = Some (m0 :: m1 :: more) ->
  let indent := Z.quot (countSpaces m0) 2 in
  (if indent <=? Scan.prevIndent st
   then popLoop (Z.to_nat (Scan.prevIndent st - indent + 1)) (Scan.s st)
   else Ok (Scan.s st)) = Ok s ->
  Scan.oneTimeComments st !! Join (Push m1 s) "." = Some thiscomment ->
  exists st',
    scanLine st text = (st', None) /\
    Scan.s st' = Push m1 s /\
    Scan.oneTimeComments st' = delete m1 (Scan.oneTimeComments st).
Proof.
  intros Hm indent Hpop Hc. unfold scanLine. rewrite Hm. fold indent.
  destruct (Z.ltb_spec indent (Scan.prevIndent st));
    cbn [Scan.prevIndent Scan.s Scan.oneTimeComments];
    rewrite Hpop; cbn [Scan.prevIndent Scan.s Scan.oneTimeComments];
    rewrite Hc; eexists; repeat split.
Qed.

(** So a path of one segment is gone from the working copy once it has
    been annotated ... *)
Lemma annotated_top_level_path_removed (st st' : Scan.t) (text m0 m1 : string)
      (more : list string) (thiscomment : list string) :
  FindStringSubmatch yamlKeyRE text = Some (m0 :: m1 :: more) ->
  (if Z.quot (countSpaces m0) 2 <=? Scan.prevIndent st
   then popLoop (Z.to_nat (Scan.prevIndent st - Z.quot (countSpaces m0) 2 + 1)) (Scan.s st)
   else Ok (Scan.s st)) = Ok [] ->
  Scan.oneTimeComments st !! m1 = Some thiscomment ->
  scanLine st text = (st', None) ->
  Scan.oneTimeComments st' !! Join (Scan.s st') "." = None.
Proof.
  intros Hm Hpop Hc Hstep.
  destruct (scanLine_annotated st text m0 m1 more [] thiscomment Hm Hpop Hc)
    as (st2 & Hstep2 & Hs & Ho).
  rewrite Hstep in Hstep2. injection Hstep2 as <-.
  rewrite Hs, Ho. cbn. apply lookup_delete_eq.
Qed.

(** ... while a path of several segments stays in it. *)
Lemma annotated_nested_path_kept (st st' : Scan.t) (text m0 m1 : string)
      (more : list string) (s : stack) (thiscomment : list string) :
  FindStringSubmatch yamlKeyRE text = Some (m0 :: m1 :: more) ->
  (if Z.quot (countSpaces m0) 2 <=? Scan.prevIndent st
   then popLoop (Z.to_nat (Scan.prevIndent st - Z.quot (countSpaces m0) 2 + 1)) (Scan.s st)
   else Ok (Scan.s st)) = Ok s ->
  Scan.oneTimeComments st !! Join (Push m1 s) "." = Some thiscomment ->
  Join (Push m1 s) "." <> m1 ->
  scanLine st text = (st', None) ->
  Scan.oneTimeComments st' !! Join (Scan.s st') "." = Some thiscomment.
Proof.
  intros Hm Hpop Hc Hne Hstep.
  destruct (scanLine_annotated st text m0 m1 more s thiscomment Hm Hpop Hc)
    as (st2 & Hstep2 & Hs & Ho).
  rewrite Hstep in Hstep2. injection Hstep2 as <-.
  rewrite Hs, Ho, lookup_delete_ne by congruence. exact Hc.
Qed.

(** C2, at a failing input: in the NFS section of a plan with two
    volumes the path [nfs.nfs_host] occurs twice.  Both occurrences are
    written with the registry comment, and the path is still in the
    working copy when the scan ends; the path [nfs], of one segment, is
    gone from it. *)
Theorem nested_path_annotated_twice :
  let (st, err) := scanLoop scanInit nfsTwoVolumes in
  err = None /\
  countLine nfsHostComment (Scan.f st) = 2%nat /\
  Scan.oneTimeComments st !! "nfs.nfs_host" = commentMap !! "nfs.nfs_host" /\
  is_Some (commentMap !! "nfs.nfs_host") /\
  Scan.oneTimeComments st !! "nfs" = None.
Proof. vm_compute. repeat split; eauto. Qed.

(** * Further properties *)

(** ** The key-path stack *)

Lemma removelast_take (s : stack) : removelast s = take (length s - 1) s.
Proof.
  rewrite removelast_firstn_len. f_equal. lia.
Qed.

Lemma popLoop_take (n : nat) :
  forall s : stack, (n <= length s)%nat -> popLoop n s = Ok (take (length s - n) s).
Proof.
  induction n as [|n IH]; intros s Hn; simpl.
  - rewrite Nat.sub_0_r, take_ge; [reflexivity | lia].
  - unfold Pop. destruct (length s) as [|m] eqn:Hlen; [lia|].
    rewrite IH; rewrite removelast_take, length_take, Hlen; [|lia].
    f_equal. rewrite take_take. f_equal. lia.
Qed.

Lemma popLoop_short (n : nat) :
  forall s : stack, (length s < n)%nat -> popLoop n s = Err "Empty Stack".
Proof.
  intros s Hn. apply (popLoop_underflow n s (length s) Hn).
  rewrite popLoop_take by lia. now rewrite Nat.sub_diag.
Qed.

(** X1: popping [n] times succeeds exactly when the stack holds at least
    [n] entries; it then leaves the entries below the [n] topmost ones,
    and otherwise fails with "Empty Stack". *)
Theorem popLoop_depth (n : nat) (s : stack) :
  popLoop n s =
  if (n <=? length s)%nat then Ok (take (length s - n) s) else Err "Empty Stack".
Proof.
  destruct (Nat.leb_spec n (length s)).
  - now apply popLoop_take.
  - now apply popLoop_short.
Qed.

(** X2: the stack is last-in first-out: after pushing the keys [ks] one
    by one, as many pops give the stack back, and a single pop returns
    the key pushed last. *)
Theorem push_then_pop (ks : list string) (s : stack) :
  popLoop (length ks) (fold_left (fun s k => Push k s) ks s) = Ok s /\
  forall k, Pop (Push k (fold_left (fun s k => Push k s) ks s)) =
            Ok (k, fold_left (fun s k => Push k s) ks s).
Proof.
  split.
  - assert (H : fold_left (fun s k => Push k s) ks s = (s ++ ks)%list).
    { revert s. induction ks as [|k ks IH]; intros s; simpl.
      - now rewrite app_nil_r.
      - rewrite IH. unfold Push. now rewrite <- app_assoc. }
    rewrite H, popLoop_take; rewrite length_app; [|lia].
    f_equal. replace (length s + length ks - length ks)%nat with (length s) by lia.
    now rewrite take_app_length.
  - intros k. apply Pop_Push.
Qed.

(** ** Migration and default resolution, continued *)

(** Case analysis on everything [readDeprecatedFields] looks at. *)
Ltac migration_cases p :=
  let c := fresh "c" in let r := fresh "r" in let a := fresh "a" in
  let ft := fresh "ft" in
  destruct p as [c r a ft ? ? ? ? ? ?];
  destruct c as [? ? ? [[]|] ? ? ? ?];
  destruct r as [[|? ?] [|? ?] [|?|?]];
  destruct a as [? ? ? [[?]|] [[?]|] ?];
  destruct ft as [[[[?]|]]|].

(** X3: what [Read] returns has [DisablePackageInstallation] set to the
    negation of the deprecated [AllowPackageInstallation] whenever the
    latter is present, whatever the current flag was; without the
    deprecated flag the current one is kept. *)
Theorem allow_package_installation_wins (p : Plan.t) :
  Cluster.DisablePackageInstallation (Plan.Cluster (setDefaults (readDeprecatedFields p))) =
  match Cluster.AllowPackageInstallation (Plan.Cluster p) with
  | Some allow => negb allow
  | None => Cluster.DisablePackageInstallation (Plan.Cluster p)
  end.
Proof. migration_cases p; reflexivity. Qed.

(** X4: the dashboard block that [Read] returns is the current one when
    the plan has it; otherwise it takes the toggle of the deprecated
    block; when neither is there it is a fresh block with the dashboard
    enabled.  A current block is never overridden by the deprecated one. *)
Theorem dashboard_current_wins (p : Plan.t) :
  AddOns.Dashboard (Plan.AddOns (setDefaults (readDeprecatedFields p))) =
  Some match AddOns.Dashboard (Plan.AddOns p), AddOns.DashboardDeprecated (Plan.AddOns p) with
       | Some d, _ => d
       | None, Some old => {| Dashboard.Disable := DashboardDeprecated.Disable old |}
       | None, None => {| Dashboard.Disable := false |}
       end.
Proof. migration_cases p; reflexivity. Qed.

(** X5: the registry server that [Read] returns is the one of the plan
    when that is not empty; an empty one is replaced by "address:port"
    when the deprecated address is not empty and the deprecated port not
    zero, and stays empty otherwise.  Address and port are kept. *)
Theorem registry_server_migrated (p : Plan.t) :
  let r := Plan.DockerRegistry p in
  let r' := Plan.DockerRegistry (setDefaults (readDeprecatedFields p)) in
  DockerRegistry.Server r' =
    (if (DockerRegistry.Server r =? "")%string
     then if (DockerRegistry.Address r =? "")%string || (DockerRegistry.Port r =? 0)
          then ""
          else DockerRegistry.Address r +:+ ":" +:+ pretty (DockerRegistry.Port r)
     else DockerRegistry.Server r) /\
  DockerRegistry.Address r' = DockerRegistry.Address r /\
  DockerRegistry.Port r' = DockerRegistry.Port r.
Proof. migration_cases p; repeat split. Qed.

Lemma readDeprecatedFields_after_setDefaults (p : Plan.t) :
  readDeprecatedFields (setDefaults (readDeprecatedFields p)) =
  setDefaults (readDeprecatedFields p).
Proof. migration_cases p; reflexivity. Qed.

Lemma defaultsCNI_idempotent (ty : string) (cni : option CNI.t) :
  defaultsCNI ty (Some (defaultsCNI ty cni)) = defaultsCNI ty cni.
Proof.
  destruct cni as [[prov [[mode [|? ?] [|?|?] [|?|?]]]]|]; try reflexivity.
  destruct ty; reflexivity.
Qed.

Lemma defaultsHeapster_idempotent (hm : option HeapsterMonitoring.t) :
  defaultsHeapster (Some (defaultsHeapster hm)) = defaultsHeapster hm.
Proof.
  destruct hm as [[[[[|?|?] [|? ?] [|? ?]] [pvc] [|?|?] [|? ?]]]|]; reflexivity.
Qed.

Lemma setDefaults_idempotent (p : Plan.t) :
  setDefaults (setDefaults p) = setDefaults p.
Proof.
  destruct p as [c r a ft e m w i s n].
  destruct c as [name pw dis allow disc ssh net [exp [|? ?]]];
    destruct a as [cni [[|? ?]] hm [[?]|] dashOld pm];
    unfold setDefaults;
    cbn [Plan.Cluster Plan.AddOns Plan.DockerRegistry Plan.Features Plan.Etcd Plan.Master
         Plan.Worker Plan.Ingress Plan.Storage Plan.NFS
         Cluster.Name Cluster.AdminPassword Cluster.DisablePackageInstallation
         Cluster.AllowPackageInstallation Cluster.DisconnectedInstallation Cluster.SSH
         Cluster.Networking Cluster.Certificates
         AddOns.CNI AddOns.DNS AddOns.HeapsterMonitoring AddOns.Dashboard
         AddOns.DashboardDeprecated AddOns.PackageManager];
    rewrite defaultsCNI_idempotent, defaultsHeapster_idempotent; reflexivity.
Qed.

(** X6: reading is stable: migrating and defaulting a plan that [Read]
    has already migrated and defaulted changes nothing. *)
Theorem Read_normalisation_idempotent (p : Plan.t) :
  setDefaults (readDeprecatedFields (setDefaults (readDeprecatedFields p))) =
  setDefaults (readDeprecatedFields p).
Proof.
  now rewrite readDeprecatedFields_after_setDefaults, setDefaults_idempotent.
Qed.

(** X7: a plan without CNI block leaves the default resolver with the
    provider "calico", log level "info", workload MTU 1500 and Felix
    input MTU 1440; the mode is the networking type of the plan when
    that is set (plans of KET < v1.5.0) and "overlay" otherwise. *)
Theorem setDefaults_CNI_absent (p : Plan.t) :
  AddOns.CNI (Plan.AddOns p) = None ->
  AddOns.CNI (Plan.AddOns (setDefaults p)) =
  Some {| CNI.Provider := "calico";
          CNI.Options :=
            {| CNIOptions.Calico :=
                 {| CalicoOptions.Mode :=
                      if (Networking.Type_ (Cluster.Networking (Plan.Cluster p)) =? "")%string
                      then "overlay"
                      else Networking.Type_ (Cluster.Networking (Plan.Cluster p));
                    CalicoOptions.LogLevel := "info";
                    CalicoOptions.WorkloadMTU := 1500;
                    CalicoOptions.FelixInputMTU := 1440 |} |} |}.
Proof.
  intros H. unfold setDefaults. cbn [AddOns.CNI Plan.AddOns]. rewrite H.
  now destruct (Networking.Type_ (Cluster.Networking (Plan.Cluster p))).
Qed.

Lemma setDefaults_CNI_absent_witness :
  AddOns.CNI (Plan.AddOns legacyHeapsterPlan) = None /\
  (fun c => CalicoOptions.Mode (calico c)) <$>
    AddOns.CNI (Plan.AddOns (setDefaults legacyHeapsterPlan)) = Some "overlay".
Proof.
  split; [reflexivity|].
  now rewrite (setDefaults_CNI_absent legacyHeapsterPlan eq_refl).
Defined.

(** X8: a plan that has a CNI block keeps the provider and the mode of
    that block as they are, even when they are empty, and ignores the
    networking type; only the log level and the two MTUs are filled in. *)
Theorem setDefaults_CNI_present (p : Plan.t) (c : CNI.t) :
  AddOns.CNI (Plan.AddOns p) = Some c ->
  exists c',
    AddOns.CNI (Plan.AddOns (setDefaults p)) = Some c' /\
    CNI.Provider c' = CNI.Provider c /\
    CalicoOptions.Mode (calico c') = CalicoOptions.Mode (calico c) /\
    CalicoOptions.LogLevel (calico c') =
      (if (CalicoOptions.LogLevel (calico c) =? "")%string
       then "info" else CalicoOptions.LogLevel (calico c)) /\
    CalicoOptions.WorkloadMTU (calico c') =
      (if CalicoOptions.WorkloadMTU (calico c) =? 0
       then 1500 else CalicoOptions.WorkloadMTU (calico c)) /\
    CalicoOptions.FelixInputMTU (calico c') =
      (if CalicoOptions.FelixInputMTU (calico c) =? 0
       then 1440 else CalicoOptions.FelixInputMTU (calico c)).
Proof.
  intros H. unfold setDefaults. cbn [AddOns.CNI Plan.AddOns]. rewrite H.
  eexists. split; [reflexivity|].
  destruct c as [prov [[mode [|? ?] [|?|?] [|?|?]]]]; repeat split.
Qed.

Lemma setDefaults_CNI_present_witness :
  exists c',
    AddOns.CNI (Plan.AddOns (setDefaults bareCNIPlan)) = Some c' /\
    CNI.Provider c' = "" /\ CalicoOptions.Mode (calico c') = "".
Proof.
  destruct (setDefaults_CNI_present bareCNIPlan CNI.zero eq_refl)
    as (c' & Hc & Hp & Hm & _).
  exists c'. repeat split; assumption.
Defined.

(** X9: after default resolution every field that has a default is set:
    the CNI, heapster and dashboard blocks are allocated, and the log
    level, the two MTUs, the DNS provider, the heapster replicas, sink
    and service type and the CA expiry are not at their zero value. *)
Theorem setDefaults_leaves_nothing_unset (p : Plan.t) :
  exists cni hm dash,
    AddOns.CNI (Plan.AddOns (setDefaults p)) = Some cni /\
    AddOns.HeapsterMonitoring (Plan.AddOns (setDefaults p)) = Some hm /\
    AddOns.Dashboard (Plan.AddOns (setDefaults p)) = Some dash /\
    CalicoOptions.LogLevel (calico cni) <> "" /\
    CalicoOptions.WorkloadMTU (calico cni) <> 0 /\
    CalicoOptions.FelixInputMTU (calico cni) <> 0 /\
    DNS.Provider (AddOns.DNS (Plan.AddOns (setDefaults p))) <> "" /\
    Heapster.Replicas (heapster hm) <> 0 /\
    Heapster.Sink (heapster hm) <> "" /\
    Heapster.ServiceType (heapster hm) <> "" /\
    Certificates.CAExpiry (Cluster.Certificates (Plan.Cluster (setDefaults p))) <> "".
Proof.
  eexists _, _, _. split; [reflexivity|]. split; [reflexivity|]. split; [reflexivity|].
  destruct p as [c r a ft e m w i s n].
  destruct c as [name pw dis allow disc ssh [ty ? ? ?] [exp [|? ?]]];
    destruct a as [cni [[|? ?]] hm dash dashOld pm];
    cbn [setDefaults Plan.Cluster Plan.AddOns Cluster.Networking Networking.Type_
         Cluster.Certificates Certificates.CAExpiry AddOns.CNI AddOns.DNS DNS.Provider
         AddOns.HeapsterMonitoring String.eqb];
    (repeat split; try discriminate);
    try (destruct cni as [[prov [[mode [|? ?] [|?|?] [|?|?]]]]|]; [..|destruct ty];
         discriminate);
    destruct hm as [[[[[|?|?] [|? ?] [|? ?]] [pvc] [|?|?] [|? ?]]]|]; discriminate.
Qed.

(** ** The template builder, continued *)

(** X10: the builder records each role count as the expected count as it
    is, also when it is negative, while a negative count gives an empty
    node list; the administrator password is taken over as it is and no
    deprecated field is set. *)
Theorem buildPlanFromTemplateOptions_any_counts (o : PlanTemplateOptions) :
  let p := buildPlanFromTemplateOptions o in
  (forall g n,
      In (g, n) [(Plan.Etcd p, EtcdNodes o); (Plan.Master p, MasterNodes o);
                 (Plan.Worker p, WorkerNodes o); (Plan.Ingress p, IngressNodes o);
                 (Plan.Storage p, StorageNodes o)] ->
      NodeGroup.ExpectedCount g = n /\
      Z.of_nat (length (NodeGroup.Nodes g)) = Z.max 0 n) /\
  Z.of_nat (length (NFS.Volumes (Plan.NFS p))) = Z.max 0 (NFSVolumes o) /\
  Cluster.AdminPassword (Plan.Cluster p) = AdminPassword o /\
  Plan.Features p = None /\
  Cluster.AllowPackageInstallation (Plan.Cluster p) = None /\
  AddOns.DashboardDeprecated (Plan.AddOns p) = None.
Proof.
  intros p.
  destruct (buildPlanFromTemplateOptions_lists o) as (E1 & E2 & E3 & E4 & E5 & E6).
  fold p in E1, E2, E3, E4, E5, E6.
  split; [|rewrite E6, length_replicate; repeat split; lia].
  intros g n Hg.
  repeat (destruct Hg as [Hg|Hg];
          [apply pair_equal_spec in Hg as [<- <-];
           rewrite ?E1, ?E2, ?E3, ?E4, ?E5, length_replicate; split; [reflexivity | lia]|]).
  destruct Hg.
Qed.

(** X11: when the decoder yields a plan as the builder made it, [Read]
    returns that plan unchanged: the builder sets every value that
    migration and default resolution would set. *)
Theorem Read_returns_built_plan
        (yamlUnmarshal : string -> result Plan.t)
        (fp : FilePlanner) (fs : FileSystem) (d : string) (o : PlanTemplateOptions) :
  ReadFile fs (File fp) = Ok d ->
  yamlUnmarshal d = Ok (buildPlanFromTemplateOptions o) ->
  Read yamlUnmarshal fp fs = Ok (buildPlanFromTemplateOptions o).
Proof.
  intros Hd Hu. unfold Read. now rewrite Hd, Hu.
Qed.

Lemma Read_returns_built_plan_witness :
  Read (fun _ => Ok (buildPlanFromTemplateOptions scenarioOptions))
       {| File := "kismatic-cluster.yaml" |} emptyPlanFile =
  Ok (buildPlanFromTemplateOptions scenarioOptions).
Proof.
  apply (Read_returns_built_plan _ _ emptyPlanFile ""); reflexivity.
Defined.

(** ** Comment blocks *)

Lemma unlines_app (a b : list string) : unlines (a ++ b) = unlines a +:+ unlines b.
Proof.
  induction a as [|l a IH]; [reflexivity|].
  cbn [unlines app]. now rewrite IH, !append_assoc.
Qed.

Lemma unlines_one (l : string) : unlines [l] = l +:+ nl.
Proof. cbn [unlines]. now rewrite append_empty_r. Qed.

Lemma countLeadingSpace_Repeat (n : nat) (rest : string) :
  countLeadingSpace (Repeat " " n +:+ ("#" +:+ rest)) = n.
Proof.
  induction n as [|n IH]; [reflexivity|].
  change (countLeadingSpace (String " " (Repeat " " n +:+ ("#" +:+ rest))) = S n).
  cbn [countLeadingSpace]. change (Ascii.eqb " " " ") with true. cbv iota. now rewrite IH.
Qed.

Lemma dropSpaces_Repeat (n : nat) (rest : string) :
  dropSpaces (Repeat " " n +:+ ("#" +:+ rest)) = "#" +:+ rest.
Proof.
  induction n as [|n IH]; [reflexivity|].
  change (dropSpaces (String " " (Repeat " " n +:+ ("#" +:+ rest))) = "#" +:+ rest).
  cbn [dropSpaces]. change (Ascii.eqb " " " ") with true. cbv iota. exact IH.
Qed.

Lemma commentLine_isComment (n : nat) (c : string) : isComment (commentLine n c) = true.
Proof.
  unfold isComment, commentLine.
  change ("# " +:+ c) with ("#" +:+ (" " +:+ c)). now rewrite dropSpaces_Repeat.
Qed.

Lemma fold_left_comments (n : nat) (cs : list string) :
  forall b,
    fold_left (fun b c => (b +:+ Repeat " " n) +:+ ("# " +:+ c +:+ nl)) cs b =
    b +:+ unlines (map (commentLine n) cs).
Proof.
  induction cs as [|c cs IH]; intros b; cbn [fold_left map unlines].
  - now rewrite append_empty_r.
  - rewrite IH. unfold commentLine. now rewrite !append_assoc.
Qed.

Lemma getCommentedLine_unlines (line : string) (cs : list string) (addNewLine : bool) :
  getCommentedLine line cs addNewLine =
  unlines ((if addNewLine then [""] else []) ++
           map (commentLine (countLeadingSpace line)) cs ++ [line]).
Proof.
  unfold getCommentedLine. rewrite fold_left_comments, !unlines_app, unlines_one.
  destruct addNewLine; cbn [unlines]; now rewrite ?append_assoc, ?append_empty_l, ?append_empty_r.
Qed.

(** X12: the block that [getCommentedLine] builds is, line by line: an
    empty line if one was asked for, one comment line per comment, and
    the field line itself last.  Every comment line is indented by as
    many spaces as the field line and starts with [#] after them. *)
Theorem getCommentedLine_block (line : string) (cs : list string) (addNewLine : bool) :
  getCommentedLine line cs addNewLine =
    unlines ((if addNewLine then [""] else []) ++
             map (commentLine (countLeadingSpace line)) cs ++ [line]) /\
  Forall (fun l => countLeadingSpace l = countLeadingSpace line /\ isComment l = true)
         (map (commentLine (countLeadingSpace line)) cs).
Proof.
  split; [apply getCommentedLine_unlines|].
  induction cs as [|c cs IH]; constructor; [|exact IH].
  split; [|apply commentLine_isComment].
  unfold commentLine. change ("# " +:+ c) with ("#" +:+ (" " +:+ c)).
  apply countLeadingSpace_Repeat.
Qed.

(** X13: [countLeadingSpace] splits a line into that many spaces and a
    rest that does not start with a space. *)
Theorem countLeadingSpace_split (s : string) :
  s = Repeat " " (countLeadingSpace s) +:+ dropSpaces s /\
  countLeadingSpace (dropSpaces s) = 0%nat.
Proof.
  induction s as [|c s [IH1 IH2]]; [now split|].
  cbn [countLeadingSpace dropSpaces].
  destruct (Ascii.eqb_spec c " ") as [->|Hc].
  - split; [|exact IH2]. cbn [Repeat]. rewrite !append_cons, append_empty_l. now f_equal.
  - split; [reflexivity|]. cbn [countLeadingSpace].
    destruct (Ascii.eqb_spec c " "); [contradiction | reflexivity].
Qed.

(** ** What the line scan writes *)

Lemma payload_app (a b : list string) : payload (a ++ b) = (payload a ++ payload b)%list.
Proof. apply List.filter_app. Qed.

Lemma payload_comments (n : nat) (cs : list string) : payload (map (commentLine n) cs) = [].
Proof.
  induction cs as [|c cs IH]; [reflexivity|].
  cbn [map payload List.filter]. rewrite commentLine_isComment, orb_true_r. exact IH.
Qed.

(** One iteration appends whole lines to the file: the scanned line
    itself, unless the iteration fails, below empty lines and comment
    lines only.  The working copy of the comments can only shrink. *)
Lemma scanLine_writes (st st' : Scan.t) (text : string) (err : option string) :
  scanLine st text = (st', err) ->
  exists added,
    Scan.f st' = Scan.f st +:+ unlines added /\
    payload added = match err with Some _ => [] | None => payload [text] end /\
    (forall l, In l added -> addedLine (Scan.oneTimeComments st) text l) /\
    Scan.oneTimeComments st' ⊆ Scan.oneTimeComments st.
Proof.
  assert (Hplain : forall st0, Scan.oneTimeComments st0 = Scan.oneTimeComments st ->
            forall pre, Scan.f st0 = Scan.f st +:+ unlines pre -> payload pre = [] ->
            (forall l, In l pre -> l = "") ->
            forall st' err,
            (emitPlain st0 text, @None string) = (st', err) ->
            exists added,
              Scan.f st' = Scan.f st +:+ unlines added /\
              payload added = match err with Some _ => [] | None => payload [text] end /\
              (forall l, In l added -> addedLine (Scan.oneTimeComments st) text l) /\
              Scan.oneTimeComments st' ⊆ Scan.oneTimeComments st).
  { clear st' err. intros st0 Ho pre Hf Hp Hpre st' err [= <- <-]. exists (pre ++ [text])%list.
    cbn [emitPlain Scan.f Scan.oneTimeComments].
    rewrite Hf, unlines_app, unlines_one, payload_app, Hp, append_assoc, Ho.
    repeat split; auto.
    intros l Hl. apply in_app_or in Hl as [Hl|[<-|[]]].
    - right. left. now apply Hpre.
    - now left. }
  unfold scanLine.
  destruct (FindStringSubmatch yamlKeyRE text) as [[|m0 [|m1 more]]|];
    try (apply (Hplain st eq_refl []);
         [now rewrite append_empty_r | reflexivity | intros l []]).
  set (indent := Z.quot (countSpaces m0) 2).
  set (st1 := if indent <? Scan.prevIndent st then _ else st).
  assert (H1 : exists pre, Scan.f st1 = Scan.f st +:+ unlines pre /\ payload pre = [] /\
                           (forall l, In l pre -> l = "") /\
                           Scan.oneTimeComments st1 = Scan.oneTimeComments st).
  { subst st1. destruct (indent <? Scan.prevIndent st).
    - exists [""]. repeat split. intros l [<-|[]]. reflexivity.
    - exists []. rewrite append_empty_r. repeat split. intros l []. }
  destruct H1 as (pre & Hf1 & Hp1 & Hpre & Ho1).
  destruct (if indent <=? Scan.prevIndent st1 then _ else _) as [s|e].
  - cbn [Scan.oneTimeComments Scan.f Scan.addNewLineBeforeComment Scan.s Scan.prevIndent].
    destruct (Scan.oneTimeComments st1 !! Join (Push m1 s) ".") as [cs|] eqn:Hc.
    + intros [= <- <-]. cbn [Scan.f Scan.oneTimeComments].
      exists (pre ++ (if Scan.addNewLineBeforeComment st1 then [""] else []) ++
              map (commentLine (countLeadingSpace text)) cs ++ [text])%list.
      rewrite Hf1, getCommentedLine_unlines, !unlines_app, !append_assoc, Ho1.
      split; [reflexivity|]. split; [|split; [|apply delete_subseteq]].
      * rewrite !payload_app, Hp1, payload_comments.
        now destruct (Scan.addNewLineBeforeComment st1).
      * intros l Hl. rewrite Ho1 in Hc.
        apply in_app_or in Hl as [Hl|Hl]; [right; left; now apply Hpre|].
        apply in_app_or in Hl as [Hl|Hl].
        { right. left. destruct (Scan.addNewLineBeforeComment st1); [|destruct Hl].
          now destruct Hl as [<-|[]]. }
        apply in_app_or in Hl as [Hl|[<-|[]]]; [|now left].
        apply in_map_iff in Hl as (c & <- & Hcin).
        right. right. now exists (Join (Push m1 s) "."), cs, c, (countLeadingSpace text).
    + intros Hres.
      eapply (fun st0 H1 H2 => Hplain st0 H1 pre H2 Hp1 Hpre); [| |exact Hres];
        cbn [Scan.oneTimeComments Scan.f]; assumption.
  - intros [= <- <-]. exists pre. rewrite Ho1. repeat split; auto.
    intros l Hl. right. left. now apply Hpre.
Qed.

Lemma addedLine_mono (m1 m2 : gmap string (list string)) (text l : string) :
  m1 ⊆ m2 -> addedLine m1 text l -> addedLine m2 text l.
Proof.
  intros Hsub [H|[H|(k & cs & c & n & Hk & Hc & Hl)]]; [now left | right; now left |].
  right. right. exists k, cs, c, n. repeat split; auto.
  eapply lookup_weaken; eauto.
Qed.

Lemma scanLoop_writes (lines : list string) :
  forall (st st' : Scan.t) (err : option string),
    scanLoop st lines = (st', err) ->
    exists out done rest,
      Scan.f st' = Scan.f st +:+ unlines out /\
      lines = (done ++ rest)%list /\
      payload out = payload done /\
      (err = None -> rest = []) /\
      (forall l, In l out ->
                 In l lines \/ l = "" \/
                 exists k cs c n, Scan.oneTimeComments st !! k = Some cs /\ In c cs /\
                                  l = commentLine n c) /\
      Scan.oneTimeComments st' ⊆ Scan.oneTimeComments st.
Proof.
  induction lines as [|text lines IH]; intros st st' err H; cbn [scanLoop] in H.
  - injection H as <- <-. exists [], [], []. rewrite append_empty_r.
    repeat split; auto; try (intros l []).
  - destruct (scanLine st text) as [st1 [e|]] eqn:Hstep.
    + injection H as <- <-.
      destruct (scanLine_writes _ _ _ _ Hstep) as (added & Hf & Hp & Hadd & Hsub).
      exists added, [], (text :: lines). repeat split; auto; [discriminate|].
      intros l Hl. destruct (Hadd l Hl) as [->|[->|Hex]]; [left; now left | auto | auto].
    + destruct (scanLine_writes _ _ _ _ Hstep) as (added & Hf & Hp & Hadd & Hsub).
      destruct (IH _ _ _ H) as (out & done & rest & Hf' & -> & Hp' & Hrest & Hout & Hsub').
      exists (added ++ out)%list, (text :: done), rest.
      rewrite Hf', Hf, unlines_app, append_assoc, payload_app, Hp, Hp'.
      repeat split; auto.
      * symmetry. apply (payload_app [text] done).
      * intros l Hl. apply in_app_or in Hl as [Hl|Hl].
        { destruct (Hadd l Hl) as [->|[->|Hex]]; [left; now left | auto | auto]. }
        destruct (Hout l Hl) as [Hin|[->|(k & cs & c & n & Hk & Hc & ->)]];
          [left; now right | auto |].
        right. right. exists k, cs, c, n. repeat split; auto.
        eapply lookup_weaken; eauto.
      * etransitivity; eauto.
Qed.



(** X15: during a write the working copy of the registry only shrinks:
    it is always part of the registry, and a path that has left it is
    not annotated again. *)
Theorem working_copy_shrinks (lines : list string) (st st' : Scan.t) (err : option string) :
  scanLoop st lines = (st', err) ->
  Scan.oneTimeComments st' ⊆ Scan.oneTimeComments st /\
  forall k, Scan.oneTimeComments st !! k = None -> Scan.oneTimeComments st' !! k = None.
Proof.
  intros H. destruct (scanLoop_writes lines _ _ _ H)
    as (out & done & rest & _ & _ & _ & _ & _ & Hsub).
  split; [exact Hsub|].
  intros k Hk. destruct (Scan.oneTimeComments st' !! k) as [cs|] eqn:Hk'; [|reflexivity].
  rewrite (lookup_weaken _ _ _ _ Hk' Hsub) in Hk. discriminate Hk.
Qed.

Lemma working_copy_shrinks_witness :
  Scan.oneTimeComments (fst (scanLoop scanInit nfsTwoVolumes)) ⊆ commentMap.
Proof.
  refine (proj1 (working_copy_shrinks nfsTwoVolumes scanInit
                   (fst (scanLoop scanInit nfsTwoVolumes))
                   (snd (scanLoop scanInit nfsTwoVolumes)) _)).
  now destruct (scanLoop scanInit nfsTwoVolumes).
Defined.

(** ** When the scan cannot fail *)

Lemma countSpaces_nonneg (s : string) : 0 <= countSpaces s.
Proof. induction s as [|c s IH]; simpl; [lia | destruct (Ascii.eqb c " "); lia]. Qed.

Lemma scanLine_stepwise (st : Scan.t) (text : string) :
  Z.of_nat (length (Scan.s st)) = Scan.prevIndent st + 1 ->
  match keyIndent text with
  | Some indent => indent <= Scan.prevIndent st + 1
  | None => True
  end ->
  exists st',
    scanLine st text = (st', None) /\
    Z.of_nat (length (Scan.s st')) = Scan.prevIndent st' + 1 /\
    Scan.prevIndent st' =
      match keyIndent text with Some indent => indent | None => Scan.prevIndent st end.
Proof.
  intros Hinv Hstep. unfold scanLine, keyIndent in *.
  destruct (FindStringSubmatch yamlKeyRE text) as [[|m0 [|m1 more]]|];
    try (eexists; split; [reflexivity|]; split; [exact Hinv | reflexivity]).
  set (indent := Z.quot (countSpaces m0) 2) in *.
  assert (H0 : 0 <= indent)
    by (apply Z.quot_pos; [apply countSpaces_nonneg | lia]).
  assert (Hpop : exists s,
             (if indent <=? Scan.prevIndent st
              then popLoop (Z.to_nat (Scan.prevIndent st - indent + 1)) (Scan.s st)
              else Ok (Scan.s st)) = Ok s /\ Z.of_nat (length s) = indent).
  { destruct (Z.leb_spec indent (Scan.prevIndent st)).
    - eexists. split; [apply popLoop_take; lia|]. rewrite length_take. lia.
    - exists (Scan.s st). split; [reflexivity | lia]. }
  destruct Hpop as (s & Hpop & Hlen).
  assert (Hpush : Z.of_nat (length (Push m1 s)) = indent + 1)
    by (unfold Push; rewrite length_app; simpl; lia).
  destruct (indent <? Scan.prevIndent st);
    cbn [Scan.prevIndent Scan.s Scan.oneTimeComments]; rewrite Hpop;
    cbn [Scan.prevIndent Scan.s Scan.oneTimeComments];
    match goal with |- context [?m !! ?k] => destruct (m !! k) end;
    eexists; (split; [reflexivity|]); split; solve [exact Hpush | reflexivity].
Qed.

Lemma scanLoop_stepwise (lines : list string) :
  forall st,
    Z.of_nat (length (Scan.s st)) = Scan.prevIndent st + 1 ->
    stepwise (Scan.prevIndent st) lines ->
    exists st',
      scanLoop st lines = (st', None) /\
      Z.of_nat (length (Scan.s st')) = Scan.prevIndent st' + 1.
Proof.
  induction lines as [|text lines IH]; intros st Hinv Hstep; cbn [scanLoop stepwise] in *.
  - now exists st.
  - destruct (scanLine_stepwise st text Hinv) as (st1 & Hs & Hinv1 & Hprev).
    { destruct (keyIndent text); [apply Hstep | exact I]. }
    rewrite Hs. apply IH; [exact Hinv1|].
    rewrite Hprev. destruct (keyIndent text); [apply Hstep | exact Hstep].
Qed.

(** X16: on text whose keys never sit more than one level deeper than
    the key before them (the first one at level 0), the scan does not
    fail: no pop meets an empty stack, and the stack always holds one
    entry more than the level of the last key. *)
Theorem stepwise_text_never_underflows (bytez : string) :
  stepwise (-1) (scanLines "" bytez) ->
  snd (annotate bytez) = None /\
  exists st, scanLoop scanInit (scanLines "" bytez) = (st, None) /\
             Z.of_nat (length (Scan.s st)) = Scan.prevIndent st + 1.
Proof.
  intros H. destruct (scanLoop_stepwise _ scanInit eq_refl H) as (st & Hs & Hinv).
  split; [|now exists st]. unfold annotate. now rewrite Hs.
Qed.

Lemma stepwise_text_never_underflows_witness :
  snd (annotate (unlines nfsTwoVolumes)) = None.
Proof.
  refine (proj1 (stepwise_text_never_underflows (unlines nfsTwoVolumes) _)).
  vm_compute. repeat split; discriminate.
Defined.

(** ** The password generator, continued *)

Lemma generateLoop_skip (E : Entropy) (n : nat) :
  forall (fuel : nat) (attempts : Z) (st : Consumed),
    draws st = (2 * calls st)%nat ->
    (forall i, (i < n)%nat ->
               exists s, candidate E (calls st + i) (reqsAt E (calls st + i)) = Ok s /\
                         MatchString alphaNumericRE s = false) ->
    attempts + Z.of_nat n <= 5 ->
    generateLoop E (n + fuel) attempts st =
    generateLoop E fuel (attempts + Z.of_nat n)
                 {| draws := draws st + 2 * n; calls := calls st + n |}.
Proof.
  induction n as [|n IH]; intros fuel attempts st Hd Hrej Hatt.
  - cbn [Nat.add]. destruct st as [d c]. cbn [draws calls].
    now rewrite Z.add_0_r, Nat.mul_0_r, !Nat.add_0_r.
  - cbn [Nat.add]. rewrite generateLoop_unfold. cbv zeta.
    destruct (Hrej 0%nat) as (s & Hs & Hm); [lia|].
    rewrite Nat.add_0_r in Hs. unfold reqsAt in Hs.
    rewrite <- Hd in Hs. replace (draws st + 1)%nat with (S (draws st)) in Hs by lia.
    rewrite Hs, Hm.
    replace (attempts =? 5) with false by (symmetry; apply Z.eqb_neq; lia).
    rewrite IH; cbn [draws calls]; [| lia | | lia].
    + f_equal; [lia | f_equal; lia].
    + intros i Hi. destruct (Hrej (S i)) as (s' & Hs' & Hm'); [lia|].
      exists s'. replace (S (calls st) + i)%nat with (calls st + S i)%nat by lia. auto.
Qed.

Lemma generateAlphaNumericPassword_skip (E : Entropy) (n fuel : nat) :
  rejectedBefore E n -> (n <= 5)%nat ->
  generateAlphaNumericPassword E (n + fuel) =
  generateLoop E fuel (Z.of_nat n) {| draws := 2 * n; calls := n |}.
Proof.
  intros Hrej Hn. unfold generateAlphaNumericPassword.
  rewrite generateLoop_skip; [reflexivity | reflexivity | | lia].
  intros i Hi. apply (Hrej i Hi).
Qed.

(** X17: an error of the candidate generator ends the loop at once: when
    the generator fails at one of its first six calls, the candidates
    before having been rejected, the function returns that error as it
    is and does not call the generator again. *)
Theorem generator_error_returned (E : Entropy) (n fuel : nat) (e : string) :
  rejectedBefore E n -> (n <= 5)%nat -> (n < fuel)%nat ->
  candidate E n (reqsAt E n) = Err e ->
  generateAlphaNumericPassword E fuel = Some (Err e, {| draws := 2 * S n; calls := S n |}).
Proof.
  intros Hrej Hn Hfuel Hc.
  replace fuel with (n + S (fuel - S n))%nat by lia.
  rewrite generateAlphaNumericPassword_skip by assumption.
  rewrite generateLoop_unfold. cbv zeta. cbn [draws calls].
  unfold reqsAt in Hc. replace (2 * n + 1)%nat with (S (2 * n)) in Hc by lia.
  rewrite Hc. do 3 f_equal. lia.
Qed.

Lemma generator_error_returned_witness :
  generateAlphaNumericPassword failingEntropy 6 =
  Some (Err "entropy exhausted", {| draws := 6; calls := 3 |}).
Proof.
  apply (generator_error_returned failingEntropy 2 6 "entropy exhausted");
    [|lia|lia|reflexivity].
  intros i Hi. exists "no-good!". split; [|reflexivity].
  destruct i as [|[|i]]; [reflexivity | reflexivity | lia].
Defined.

(** X18: no conforming candidate is turned down: the first candidate
    among the first six that is not empty and consists of letters and
    the digits 1 to 9 is returned, without further calls. *)
Theorem first_conforming_candidate_returned (E : Entropy) (n fuel : nat) (s : string) :
  rejectedBefore E n -> (n <= 5)%nat -> (n < fuel)%nat ->
  candidate E n (reqsAt E n) = Ok s ->
  s <> "" -> allIn alphaNum19 s = true ->
  generateAlphaNumericPassword E fuel = Some (Ok s, {| draws := 2 * S n; calls := S n |}).
Proof.
  intros Hrej Hn Hfuel Hc Hne Hall.
  replace fuel with (n + S (fuel - S n))%nat by lia.
  rewrite generateAlphaNumericPassword_skip by assumption.
  rewrite generateLoop_unfold. cbv zeta. cbn [draws calls].
  unfold reqsAt in Hc. replace (2 * n + 1)%nat with (S (2 * n)) in Hc by lia.
  rewrite Hc, MatchString_alphaNumericRE, Hall.
  destruct s; [congruence|]. cbn [String.eqb negb andb]. do 3 f_equal. lia.
Qed.

Lemma first_conforming_candidate_returned_witness :
  generateAlphaNumericPassword luckyEntropy 6 =
  Some (Ok "Xk3mPq9TrWv1bNc7", {| draws := 6; calls := 3 |}).
Proof.
  apply (first_conforming_candidate_returned luckyEntropy 2 6 "Xk3mPq9TrWv1bNc7");
    [|lia|lia|reflexivity|discriminate|reflexivity].
  intros i Hi. exists "has0zero". split; [|reflexivity].
  destruct i as [|[|i]]; [reflexivity | reflexivity | lia].
Defined.

(** X19: the validation pattern accepts exactly the strings that are not
    empty and consist of ASCII letters and the digits 1 to 9; a string
    that contains the digit 0 is turned down. *)
Theorem alphaNumericRE_accepts (s : string) :
  (MatchString alphaNumericRE s = true <->
   s <> "" /\
   forall c, In c (list_ascii_of_string s) -> letter c = true \/ between "1" "9" c = true) /\
  (In "0"%char (list_ascii_of_string s) -> MatchString alphaNumericRE s = false).
Proof.
  assert (Hcls : forall c, alphaNum19 c = true <-> letter c = true \/ between "1" "9" c = true).
  { intros c. unfold alphaNum19, letter. rewrite !orb_true_iff. tauto. }
  rewrite MatchString_alphaNumericRE. split.
  - rewrite andb_true_iff, allIn_In. split.
    + intros [Hne Hall]. split; [intros ->; discriminate Hne|].
      intros c Hc. now apply Hcls, Hall.
    + intros [Hne Hall]. split; [destruct s; [congruence | reflexivity]|].
      intros c Hc. now apply Hcls, Hall.
  - intros H0. apply andb_false_iff. right.
    destruct (allIn alphaNum19 s) eqn:Hall; [|reflexivity].
    apply (proj1 (allIn_In alphaNum19 s)) in H0; [discriminate H0 | exact Hall].
Qed.

(** X20: [WritePlanTemplate] never hands a plan with an empty password to
    the planner.  Either the password generator fails and nothing is
    written, or the planner is called once, with the plan built from the
    options and a password that is the one given or, if none was given,
    a generated one that passed the validation. *)
Theorem WritePlanTemplate_password
        (E : Entropy) (fuel : nat) (o : PlanTemplateOptions)
        (w : Plan.t -> FileSystem -> FileSystem * option string)
        (fs : FileSystem) (r : FileSystem * option string) :
  WritePlanTemplate E fuel o w fs = Some r ->
  (exists e, r = (fs, Some ("error generating random password: " +:+ e))) \/
  (exists pw,
      pw <> "" /\
      (if (AdminPassword o =? "")%string
       then MatchString alphaNumericRE pw = true
       else pw = AdminPassword o) /\
      Cluster.AdminPassword
        (Plan.Cluster (buildPlanFromTemplateOptions (setAdminPassword pw o))) = pw /\
      r = wrapWriteError (w (buildPlanFromTemplateOptions (setAdminPassword pw o)) fs)).
Proof.
  unfold WritePlanTemplate. destruct (String.eqb_spec (AdminPassword o) "") as [Hpw|Hpw].
  - destruct (generateAlphaNumericPassword E fuel) as [[[pw|e] st]|] eqn:Hg; [| |discriminate].
    + intros [= <-]. right. exists pw.
      unfold generateAlphaNumericPassword in Hg.
      destruct (generateLoop_success E fuel 0 {| draws := 0; calls := 0 |} st pw eq_refl Hg)
        as (n & _ & _ & _ & Hm).
      repeat split; auto.
      intros ->. discriminate Hm.
    + intros [= <-]. left. now exists e.
  - intros [= <-]. right. exists (AdminPassword o).
    repeat split; auto.
Qed.

Lemma WritePlanTemplate_password_witness :
  exists e,
    WritePlanTemplate stuckEntropy 6 scenarioOptions (fun _ fs => (fs, None)) emptyPlanFile =
    Some (emptyPlanFile, Some ("error generating random password: " +:+ e)).
Proof.
  destruct (WritePlanTemplate_password stuckEntropy 6 scenarioOptions
              (fun _ fs => (fs, None)) emptyPlanFile
              (emptyPlanFile, Some ("error generating random password: " +:+ errAlphaNumeric))
              eq_refl) as [[e He]|(pw & _ & _ & _ & Hr)].
  - exists e. now rewrite <- He.
  - discriminate Hr.
Defined.

(** ** The key pattern, continued *)

Lemma greedy_star_exact {R : Type} (c : class) (k : nat -> string -> option R)
      (m rest : string) (r : R) :
  forall pos,
    allIn c m = true ->
    match rest with String a _ => c a = false | EmptyString => True end ->
    k (pos + String.length m)%nat rest = Some r ->
    greedy_star c k pos (m +:+ rest) = Some (m, r).
Proof.
  induction m as [|a m IH]; intros pos Hall Hstop Hk.
  - rewrite append_empty_l. simpl in Hk. rewrite Nat.add_0_r in Hk.
    destruct rest as [|b rest]; simpl; [now rewrite Hk|].
    now rewrite Hstop, Hk.
  - simpl in Hall. apply andb_true_iff in Hall as [Ha Hall].
    rewrite append_cons. simpl. rewrite Ha, (IH (S pos)); auto.
    simpl in Hk. now rewrite Nat.add_succ_r in Hk.
Qed.

Lemma countSpaces_app (a b : string) : countSpaces (a +:+ b) = countSpaces a + countSpaces b.
Proof.
  induction a as [|x a IH]; [reflexivity|].
  rewrite append_cons. cbn [countSpaces]. rewrite IH. lia.
Qed.

Lemma countSpaces_key (key : string) : allIn keyChar key = true -> countSpaces key = 0.
Proof.
  induction key as [|x key IH]; [reflexivity|].
  cbn [allIn countSpaces]. intros H. apply andb_true_iff in H as [Hx Hk].
  rewrite (IH Hk). destruct (Ascii.eqb_spec x " ") as [->|_]; [discriminate Hx | reflexivity].
Qed.

(** X21: the key pattern finds something exactly in the lines that show
    a key: a non-empty run of letters, underscores and hyphens followed
    by any number of spaces and a colon. *)
Theorem yamlKeyRE_finds_shown_keys (text : string) :
  is_Some (FindStringSubmatch yamlKeyRE text) <-> showsKey text.
Proof.
  unfold FindStringSubmatch. split.
  - intros [matched H].
    destruct (search yamlKeyRE 0 text) as [[whole groups]|] eqn:Hs; [|discriminate].
    apply search_sound in Hs as (pre & s' & -> & Hrun).
    apply run_yamlKeyRE_sound in Hrun
      as (lead & key & sp & rest & _ & -> & -> & _ & Hne & Hkey & Hsp).
    exists (pre +:+ lead), key, sp, rest. rewrite !append_assoc. repeat split; auto.
  - intros (pre & key & sp & post & -> & Hne & Hkey & Hsp).
    destruct (run_yamlKeyRE_complete (0 + String.length pre) key sp post Hne Hkey Hsp)
      as [r Hr].
    destruct (search_complete yamlKeyRE pre _ 0%nat r Hr) as [[w g] ->]. eauto.
Qed.

(** X22: on a line made of a lead without letters (indentation, a list
    marker), a key that starts with a letter, and a colon, the pattern
    matches from the start of the line up to the colon and captures the
    key; the level that the scan computes is half the number of spaces
    in the lead, rounded down. *)
Theorem yamlKeyRE_on_key_line (lead : string) (a : ascii) (key' rest : string) :
  allIn (fun c => negb (letter c)) lead = true ->
  letter a = true ->
  allIn keyChar (String a key') = true ->
  let key := String a key' in
  FindStringSubmatch yamlKeyRE (lead +:+ key +:+ ":" +:+ rest) =
    Some [lead +:+ key +:+ ":"; key] /\
  keyIndent (lead +:+ key +:+ ":" +:+ rest) = Some (Z.quot (countSpaces lead) 2).
Proof.
  intros Hlead Ha Hkey key.
  assert (Hfind : FindStringSubmatch yamlKeyRE (lead +:+ key +:+ ":" +:+ rest) =
                  Some [lead +:+ key +:+ ":"; key]).
  { unfold FindStringSubmatch.
    assert (Hrun : run yamlKeyRE 0 (lead +:+ key +:+ ":" +:+ rest) =
                   Some (lead +:+ key +:+ ":", [key])).
    { cbn [allIn] in Hkey. apply andb_true_iff in Hkey as [Hka Hkey'].
      assert (H2 : forall pos, run [Rep Star (char " "); Rep One (char ":")] pos (":" +:+ rest) =
                               Some (":", [])) by reflexivity.
      assert (H1 : forall pos,
                 run [Capture Plus keyChar; Rep Star (char " "); Rep One (char ":")] pos
                     (key +:+ ":" +:+ rest) = Some (key +:+ ":", [key])).
      { intros pos. subst key. rewrite append_cons. cbn [run greedy]. rewrite Hka.
        match goal with
        | |- context [greedy_star keyChar ?k (S pos) _] =>
            pose proof (greedy_star_exact keyChar k key' (":" +:+ rest) (":", []) (S pos)
                          Hkey' eq_refl (H2 (S pos + String.length key')%nat)) as Hg
        end.
        cbv beta in Hg. rewrite Hg. reflexivity. }
      unfold yamlKeyRE. cbn [run greedy].
      assert (Hstop : match key +:+ ":" +:+ rest with
                      | String c _ => negb (letter c) = false
                      | EmptyString => True
                      end).
      { subst key. rewrite append_cons. now rewrite Ha. }
      match goal with
      | |- context [greedy_star ?c ?k 0%nat _] =>
          pose proof (greedy_star_exact c k lead (key +:+ ":" +:+ rest) (key +:+ ":", [key])
                        0%nat Hlead Hstop (H1 (0 + String.length lead)%nat)) as Hg
      end.
      cbv beta in Hg. rewrite Hg. reflexivity. }
    destruct (lead +:+ key +:+ ":" +:+ rest); cbn [search]; now rewrite Hrun. }
  split; [exact Hfind|].
  unfold keyIndent. rewrite Hfind. do 2 f_equal.
  rewrite !countSpaces_app, (countSpaces_key key Hkey). cbn. lia.
Qed.

Lemma yamlKeyRE_on_key_line_witness :
  FindStringSubmatch yamlKeyRE ("  - " +:+ "nfs_host" +:+ ":" +:+ " 10.0.0.1") =
    Some ["  - " +:+ "nfs_host" +:+ ":"; "nfs_host"] /\
  keyIndent ("  - " +:+ "nfs_host" +:+ ":" +:+ " 10.0.0.1") = Some 1.
Proof.
  apply (yamlKeyRE_on_key_line "  - " "n" "fs_host" " 10.0.0.1"); reflexivity.
Defined.

(** ** The plan file *)



(** X24: when the plan cannot be marshalled or the file cannot be
    created, [Write] reports the failure and leaves the file system as it
    was: a plan file that exists keeps its content. *)
Theorem Write_failing_early_keeps_files
        (yamlMarshal : Plan.t -> result string)
        (fp : FilePlanner) (p : Plan.t) (fs : FileSystem) :
  (exists e, yamlMarshal p = Err e) \/ File fp ∈ denied fs ->
  fst (Write yamlMarshal fp p fs) = fs /\
  exists e, snd (Write yamlMarshal fp p fs) = Some e.
Proof.
  intros H. unfold Write, Create.
  destruct (yamlMarshal p) as [bytez|e] eqn:Hm.
  - destruct H as [[e He]|Hin]; [discriminate He|].
    destruct (decide (File fp ∈ denied fs)); [|contradiction]. eauto.
  - eauto.
Qed.

Lemma Write_failing_early_keeps_files_witness :
  fst (Write (fun _ => Err "cannot marshal") {| File := "kismatic-cluster.yaml" |}
         Plan.zero emptyPlanFile) = emptyPlanFile.
Proof.
  refine (proj1 (Write_failing_early_keeps_files (fun _ => Err "cannot marshal")
                   {| File := "kismatic-cluster.yaml" |} Plan.zero emptyPlanFile _)).
  left. now exists "cannot marshal".
Defined.

(** ** The inspector's package check and package rule *)

(** X25: the verdict of [Check] is positive exactly when it returns no
    error. *)
Theorem Check_verdict_and_error (c : check.PackageCheck) :
  fst (check.Check c) = true <-> snd (check.Check c) = None.
Proof.
  unfold check.Check.
  destruct (check.IsInstalled _ _) as [[]|]; destruct (check.InstallationDisabled c);
    destruct (check.ShouldNotBeInstalled c); cbn; try (split; [reflexivity | reflexivity]);
    try (split; discriminate);
    destruct (check.IsAvailable _ _) as [[]|]; cbn; split; discriminate.
Qed.

(** X26: once the package manager has told whether the package is
    installed, the verdict is settled.  With installation enabled the
    check passes unless a package that should not be installed is; with
    installation disabled it passes when the package is installed or
    should not be installed (also when such a package is installed).
    Whether the package is available changes the error message only. *)
Theorem Check_verdict (c : check.PackageCheck) (installed : bool) :
  check.IsInstalled (check.Manager c) (check.Query c) = Ok installed ->
  fst (check.Check c) =
  if check.InstallationDisabled c
  then check.ShouldNotBeInstalled c || installed
  else negb (installed && check.ShouldNotBeInstalled c).
Proof.
  intros H. unfold check.Check. rewrite H.
  destruct installed, (check.InstallationDisabled c), (check.ShouldNotBeInstalled c); cbn;
    try reflexivity.
  destruct (check.IsAvailable _ _) as [[]|]; reflexivity.
Qed.

Lemma Check_verdict_witness :
  fst (check.Check (dockerCheck true true)) = true /\
  fst (check.Check (dockerCheck false true)) = false.
Proof.
  split.
  - now rewrite (Check_verdict (dockerCheck true true) false eq_refl).
  - now rewrite (Check_verdict (dockerCheck false true) false eq_refl).
Defined.

(** X27: [Validate] returns no error exactly for the rules that name a
    package and either accept any version or name one; it never returns
    more than two errors. *)
Theorem Validate_accepts (p : rule.PackageDependency) :
  (rule.Validate p = [] <->
   rule.PackageName p <> "" /\
   (rule.AnyVersion p = true \/ rule.PackageVersion p <> "")) /\
  (length (rule.Validate p) <= 2)%nat.
Proof.
  unfold rule.Validate.
  destruct (String.eqb_spec (rule.PackageName p) "") as [Hn|Hn];
    destruct (rule.AnyVersion p);
    destruct (String.eqb_spec (rule.PackageVersion p) "") as [Hv|Hv]; cbn;
    (split; [|lia]); split;
    try discriminate; try reflexivity;
    try (intros [H1 H2]; contradiction);
    try (intros [H1 [H2|H2]]; [discriminate | contradiction]);
    auto.
Qed.

(** ** Paths of one segment *)

(** X28: a registered path of one segment (a top-level key such as
    [etcd]) is annotated at most once per write: once a line with that
    path has been written with its comment, the path is missing from the
    working copy for the rest of the scan, whatever lines follow. *)
Theorem top_level_path_annotated_once
        (st st1 st2 : Scan.t) (text m0 m1 : string) (more : list string)
        (thiscomment : list string) (lines : list string) (err : option string) :
  FindStringSubmatch yamlKeyRE text = Some (m0 :: m1 :: more) ->
  (if Z.quot (countSpaces m0) 2 <=? Scan.prevIndent st
   then popLoop (Z.to_nat (Scan.prevIndent st - Z.quot (countSpaces m0) 2 + 1)) (Scan.s st)
   else Ok (Scan.s st)) = Ok [] ->
  Scan.oneTimeComments st !! m1 = Some thiscomment ->
  scanLine st text = (st1, None) ->
  scanLoop st1 lines = (st2, err) ->
  Scan.s st1 = [m1] /\
  Scan.f st1 = Scan.f st +:+
               (if Z.quot (countSpaces m0) 2 <? Scan.prevIndent st then nl else "") +:+
               getCommentedLine text thiscomment
                 (if Z.quot (countSpaces m0) 2 <? Scan.prevIndent st
                  then false else Scan.addNewLineBeforeComment st) /\
  Scan.oneTimeComments st2 !! m1 = None.
Proof.
  intros Hm Hpop Hc Hstep Hloop.
  assert (H1 : Scan.s st1 = [m1] /\
               Scan.f st1 = Scan.f st +:+
                 (if Z.quot (countSpaces m0) 2 <? Scan.prevIndent st then nl else "") +:+
                 getCommentedLine text thiscomment
                   (if Z.quot (countSpaces m0) 2 <? Scan.prevIndent st
                    then false else Scan.addNewLineBeforeComment st) /\
               Scan.oneTimeComments st1 = delete m1 (Scan.oneTimeComments st)).
  { unfold scanLine in Hstep. rewrite Hm in Hstep.
    destruct (Z.quot (countSpaces m0) 2 <? Scan.prevIndent st);
      cbn [Scan.prevIndent Scan.s Scan.oneTimeComments Scan.f Scan.addNewLineBeforeComment]
        in Hstep;
      rewrite Hpop in Hstep;
      cbn [Scan.prevIndent Scan.s Scan.oneTimeComments Scan.f Scan.addNewLineBeforeComment
           Push app Join] in Hstep;
      rewrite Hc in Hstep; injection Hstep as <-;
      cbn [Scan.s Scan.f Scan.oneTimeComments]; repeat split;
      now rewrite ?append_assoc, ?append_empty_l. }
  destruct H1 as (Hs & Hf & Ho). split; [exact Hs|]. split; [exact Hf|].
  destruct (scanLoop_writes lines _ _ _ Hloop) as (_ & _ & _ & _ & _ & _ & _ & _ & Hsub).
  destruct (Scan.oneTimeComments st2 !! m1) as [cs|] eqn:Hk; [|reflexivity].
  pose proof (lookup_weaken _ _ _ _ Hk Hsub) as Hk1.
  rewrite Ho, lookup_delete_eq in Hk1. discriminate Hk1.
Qed.

Lemma top_level_path_annotated_once_witness :
  Scan.oneTimeComments
    (fst (scanLoop (fst (scanLine scanInit "etcd:")) ["  expected_count: 3"; "etcd:"]))
    !! "etcd" = None.
Proof.
  refine (proj2 (proj2 (top_level_path_annotated_once
                          scanInit (fst (scanLine scanInit "etcd:"))
                          (fst (scanLoop (fst (scanLine scanInit "etcd:"))
                                  ["  expected_count: 3"; "etcd:"]))
                          "etcd:" "etcd:" "etcd" []
                          ["Etcd nodes are the ones that run the etcd distributed key-value database."]
                          ["  expected_count: 3"; "etcd:"]
                          (snd (scanLoop (fst (scanLine scanInit "etcd:"))
                                  ["  expected_count: 3"; "etcd:"]))
                          _ _ _ _ _)));
    reflexivity.
Defined.

(** X29: whatever the key pattern finds in a line has two parts: the
    match, which is a run of non-letters, the key, a run of spaces and a
    colon, and the captured key, which is not empty and consists of
    letters, underscores and hyphens. *)
Theorem yamlKeyRE_match_shape (text : string) (matched : list string) :
  FindStringSubmatch yamlKeyRE text = Some matched ->
  exists lead key sp,
    matched = [lead +:+ key +:+ sp +:+ ":"; key] /\
    allIn (fun c => negb (letter c)) lead = true /\
    key <> "" /\ allIn keyChar key = true /\ allIn (char " ") sp = true /\
    exists pre post, text = pre +:+ (lead +:+ key +:+ sp +:+ ":") +:+ post.
Proof.
  unfold FindStringSubmatch.
  destruct (search yamlKeyRE 0 text) as [[whole groups]|] eqn:Hs; [|discriminate].
  intros [= <-].
  apply search_sound in Hs as (pre & s' & -> & Hrun).
  apply run_yamlKeyRE_sound in Hrun
    as (lead & key & sp & rest & -> & -> & -> & Hlead & Hne & Hkey & Hsp).
  exists lead, key, sp. repeat split; auto. now exists pre, rest.
Qed.

Lemma yamlKeyRE_match_shape_witness :
  FindStringSubmatch yamlKeyRE "  - nfs_host : a" = Some ["  - nfs_host :"; "nfs_host"] /\
  exists lead key sp,
    ["  - nfs_host :"; "nfs_host"] = [lead +:+ key +:+ sp +:+ ":"; key] /\ key <> "".
Proof.
  split; [reflexivity|].
  destruct (yamlKeyRE_match_shape "  - nfs_host : a" ["  - nfs_host :"; "nfs_host"] eq_refl)
    as (lead & key & sp & Hm & _ & Hne & _).
  now exists lead, key, sp.
Defined.
